(** * top_players.py: a shallow embedding and its verified properties

    The script reads tbaMUD player files ([lib/plrfiles/<X>/<name>.plr]),
    extracts five fields from each and prints two leaderboards.

    Conventions of the embedding.
    - A Python [str] is a list of Unicode code points ([text]).  The tables
      of [str.isspace], [str.splitlines] and of the decimal digits accepted
      by [int] are those of CPython 3.11 (Unicode 14.0).
    - A Python [int] is a [Z].
    - Exceptions are explicit: a computation that may raise has type
      [res A]; [try ... except E: ...] is [try_except].
    - The [data] dict of [parse_player_file] has five fixed keys and is a
      record; [CLASS_NAMES] and [CLASS_ICONS] are [gmap]s; the insertion
      ordered [class_counts] dict is an association list.
    - The file system is a tree of [node]s; [print] appends one text to the
      list of printed texts. *)

From Stdlib Require Import ZArith NArith List String Ascii Lia Sorted Permutation.
From stdpp Require Import gmap.
From Stdlib Require DecimalPos DecimalN.
Import ListNotations.

Local Open Scope Z_scope.

(** ** Text *)

Definition char := N.
Definition text := list char.

(** A literal of the source whose characters are all below U+0100. *)
Definition py (s : string) : text := List.map N_of_ascii (list_ascii_of_string s).
Arguments py s%_string.

Definition N_in (c : N) (l : list N) : bool := existsb (N.eqb c) l.

(** [str.isspace] on one code point (Py_UNICODE_ISSPACE). *)
Definition is_space (c : char) : bool :=
  N_in c [0x09; 0x0A; 0x0B; 0x0C; 0x0D; 0x1C; 0x1D; 0x1E; 0x1F; 0x20; 0x85;
          0xA0; 0x1680; 0x2000; 0x2001; 0x2002; 0x2003; 0x2004; 0x2005;
          0x2006; 0x2007; 0x2008; 0x2009; 0x200A; 0x2028; 0x2029; 0x202F;
          0x205F; 0x3000]%N.

(** The line boundaries of [str.splitlines] (a CR LF pair counts once). *)
Definition is_linebreak (c : char) : bool :=
  N_in c [0x0A; 0x0B; 0x0C; 0x0D; 0x1C; 0x1D; 0x1E; 0x85; 0x2028; 0x2029]%N.

Fixpoint lstrip (s : text) : text :=
  match s with
  | c :: r => if is_space c then lstrip r else s
  | [] => []
  end.

Definition rstrip (s : text) : text := rev (lstrip (rev s)).

(** [s.strip()] *)
Definition strip (s : text) : text := rstrip (lstrip s).

(** [s.startswith(p)] *)
Fixpoint startswith (p s : text) : bool :=
  match p, s with
  | [], _ => true
  | a :: p', b :: s' => N.eqb a b && startswith p' s'
  | _ :: _, [] => false
  end.

(** [s.endswith(p)] *)
Definition endswith (p s : text) : bool := startswith (rev p) (rev s).

(** [content.splitlines()]; [cur] holds the current line, reversed. *)
Fixpoint splitlines_from (cur : text) (s : text) : list text :=
  match s with
  | [] => match cur with [] => [] | _ :: _ => [rev cur] end
  | c :: r =>
      if is_linebreak c then
        rev cur ::
          match r with
          | d :: r' =>
              if N.eqb c 0x0D && N.eqb d 0x0A then splitlines_from [] r'
              else splitlines_from [] r
          | [] => splitlines_from [] r
          end
      else splitlines_from (c :: cur) r
  end.

Definition splitlines (s : text) : list text := splitlines_from [] s.

(** [s.split(sep, 1)] for a one-character separator: at most one split, at
    the first occurrence of [sep]. *)
Fixpoint split_once_from (sep : char) (pre : text) (s : text) : list text :=
  match s with
  | [] => [rev pre]
  | c :: r => if N.eqb c sep then [rev pre; r] else split_once_from sep (c :: pre) r
  end.

Definition split_once (sep : char) (s : text) : list text := split_once_from sep [] s.

Definition colon : char := 0x3A%N.

(** ** Exceptions *)

Inductive exn : Set :=
| ValueError
| IndexError
| OSError
| IsADirectoryError
| NotADirectoryError.

Definition exn_eqb (a b : exn) : bool :=
  match a, b with
  | ValueError, ValueError | IndexError, IndexError | OSError, OSError
  | IsADirectoryError, IsADirectoryError
  | NotADirectoryError, NotADirectoryError => true
  | _, _ => false
  end.

Inductive res (A : Type) : Type :=
| Ok (a : A)
| Raise (e : exn).
Arguments Ok {A} a.
Arguments Raise {A} e.

Definition bind {A B} (m : res A) (k : A -> res B) : res B :=
  match m with
  | Ok a => k a
  | Raise e => Raise e
  end.

Notation "'let*' x ':=' m 'in' k" := (bind m (fun x => k))
  (at level 10, x name, m at level 100, k at level 200).

(** [try: body  except (e1, ..., en): handler] *)
Definition try_except {A} (body : res A) (caught : list exn) (handler : res A) : res A :=
  match body with
  | Ok a => Ok a
  | Raise e => if existsb (exn_eqb e) caught then handler else Raise e
  end.

(** [try: body  except Exception: handler]; every exception of the model
    derives from [Exception]. *)
Definition try_except_any {A} (body : res A) (handler : res A) : res A :=
  match body with
  | Ok a => Ok a
  | Raise _ => handler
  end.

(** [l[i]] for a non-negative index. *)
Definition getitem {A} (l : list A) (i : nat) : res A :=
  match nth_error l i with
  | Some x => Ok x
  | None => Raise IndexError
  end.

(** [for x in xs: s = body(s, x)] *)
Fixpoint for_each {A S} (xs : list A) (body : S -> A -> res S) (s : S) : res S :=
  match xs with
  | [] => Ok s
  | x :: r => let* s' := body s x in for_each r body s'
  end.

(** ** The builtin [int] on a [str] *)

(** First code point of each block of ten decimal digits (category Nd). *)
Definition decimal_zeros : list N :=
  [0x30; 0x660; 0x6F0; 0x7C0; 0x966; 0x9E6; 0xA66; 0xAE6; 0xB66; 0xBE6;
   0xC66; 0xCE6; 0xD66; 0xDE6; 0xE50; 0xED0; 0xF20; 0x1040; 0x1090; 0x17E0;
   0x1810; 0x1946; 0x19D0; 0x1A80; 0x1A90; 0x1B50; 0x1BB0; 0x1C40; 0x1C50;
   0xA620; 0xA8D0; 0xA900; 0xA9D0; 0xA9F0; 0xAA50; 0xABF0; 0xFF10; 0x104A0;
   0x10D30; 0x11066; 0x110F0; 0x11136; 0x111D0; 0x112F0; 0x11450; 0x114D0;
   0x11650; 0x116C0; 0x11730; 0x118E0; 0x11950; 0x11C50; 0x11D50; 0x11DA0;
   0x16A60; 0x16AC0; 0x16B50; 0x1D7CE; 0x1D7D8; 0x1D7E2; 0x1D7EC; 0x1D7F6;
   0x1E140; 0x1E2F0; 0x1E950; 0x1FBF0]%N.

(** Py_UNICODE_TODECIMAL *)
Definition to_decimal (c : char) : option Z :=
  match List.find (fun z => (z <=? c)%N && (c <? z + 10)%N) decimal_zeros with
  | Some z => Some (Z.of_N (c - z))
  | None => None
  end.

(** White space skipped by [int] around the number: the C locale's for
    ASCII, [str.isspace] above it. *)
Definition int_space (c : char) : bool :=
  if (c <? 127)%N then N_in c [0x09; 0x0A; 0x0B; 0x0C; 0x0D; 0x20]%N else is_space c.

Fixpoint skip_int_space (s : text) : text :=
  match s with
  | c :: r => if int_space c then skip_int_space r else s
  | [] => []
  end.

Definition underscore : char := 0x5F%N.

(** The run of digits and single underscores; yields the value, the number
    of digits and the rest, or nothing when an underscore is doubled or
    ends the run. *)
Fixpoint scan_digits (after_us : bool) (acc : Z) (digits : N) (s : text)
  : option (Z * N * text) :=
  match s with
  | [] => if after_us then None else Some (acc, digits, [])
  | c :: r =>
      if N.eqb c underscore then
        if after_us then None else scan_digits true acc digits r
      else
        match to_decimal c with
        | Some d => scan_digits false (10 * acc + d) (digits + 1)%N r
        | None => if after_us then None else Some (acc, digits, s)
        end
  end.

(** sys.get_int_max_str_digits(), at its default. *)
Definition int_max_str_digits : N := 4300%N.

Definition split_sign (s : text) : bool * text :=
  match s with
  | c :: r =>
      if N.eqb c 0x2D then (true, r)
      else if N.eqb c 0x2B then (false, r)
      else (false, s)
  | [] => (false, s)
  end.

(** [int(s)] *)
Definition py_int (s : text) : res Z :=
  let (neg, body) := split_sign (skip_int_space s) in
  if startswith [underscore] body then Raise ValueError
  else
    match scan_digits false 0 0%N body with
    | None => Raise ValueError
    | Some (v, digits, rest) =>
        if (digits =? 0)%N then Raise ValueError
        else if (int_max_str_digits <? digits)%N then Raise ValueError
        else
          match skip_int_space rest with
          | [] => Ok (if neg then - v else v)
          | _ :: _ => Raise ValueError
          end
    end.

(** ** Records *)

(** [CLASS_NAMES] *)
Definition CLASS_NAMES : gmap Z text :=
  <[0 := py "Magic User"]> (<[1 := py "Cleric"]> (<[2 := py "Thief"]>
    (<[3 := py "Warrior"]> ∅))).

(** [CLASS_ICONS]; the last three icons end in a variation selector. *)
Definition CLASS_ICONS : gmap Z text :=
  <[0 := [0x1F52E%N]]> (<[1 := [0x271D%N; 0xFE0F%N]]>
    (<[2 := [0x1F5E1%N; 0xFE0F%N]]> (<[3 := [0x2694%N; 0xFE0F%N]]> ∅))).

Definition unknown_name : text := py "Unknown".
Definition unknown_icon : text := [0x2753%N].

(** [d.get(k, default)] *)
Definition dict_get {V} (d : gmap Z V) (k : Z) (default : V) : V :=
  match d !! k with
  | Some v => v
  | None => default
  end.

(** The dataclass [Player]. *)
Record Player : Type := mkPlayer {
  name : text;
  class_id : Z;
  level : Z;
  xp : Z;
  gold : Z
}.

Definition class_name (p : Player) : text := dict_get CLASS_NAMES (class_id p) unknown_name.
Definition class_icon (p : Player) : text := dict_get CLASS_ICONS (class_id p) unknown_icon.

(** The dict [data] of [parse_player_file]: the same five keys, filled in
    line after line. *)
Record data : Type := mkData {
  d_name : text;
  d_class_id : Z;
  d_level : Z;
  d_xp : Z;
  d_gold : Z
}.

Definition data_init : data := mkData [] 0 0 0 0.

Definition set_name (d : data) (v : text) : data :=
  mkData v (d_class_id d) (d_level d) (d_xp d) (d_gold d).
Definition set_class_id (d : data) (v : Z) : data :=
  mkData (d_name d) v (d_level d) (d_xp d) (d_gold d).
Definition set_level (d : data) (v : Z) : data :=
  mkData (d_name d) (d_class_id d) v (d_xp d) (d_gold d).
Definition set_xp (d : data) (v : Z) : data :=
  mkData (d_name d) (d_class_id d) (d_level d) v (d_gold d).
Definition set_gold (d : data) (v : Z) : data :=
  mkData (d_name d) (d_class_id d) (d_level d) (d_xp d) v.

(** The [Player] built from the dict, key by key. *)
Definition Player_of_data (d : data) : Player :=
  mkPlayer (d_name d) (d_class_id d) (d_level d) (d_xp d) (d_gold d).

(** ** The parser *)

(** [line.split(":", 1)[1].strip()] *)
Definition value_of (line : text) : res text :=
  let* v := getitem (split_once colon line) 1 in Ok (strip v).

(** [data[key] = int(line.split(":", 1)[1].strip())] *)
Definition assign_int (set : data -> Z -> data) (d : data) (line : text) : res data :=
  let* v := value_of line in
  let* n := py_int v in
  Ok (set d n).

(** The branch of the [if]/[elif] chain that a stripped line takes. *)
Inductive branch : Set := BName | BClas | BLevl | BExp | BGold | BNone.

#[global] Instance branch_eq_dec : EqDecision branch.
Proof. solve_decision. Defined.

Definition branch_of (line : text) : branch :=
  if startswith (py "Name:") line then BName
  else if startswith (py "Clas:") line then BClas
  else if startswith (py "Levl:") line then BLevl
  else if startswith (py "Exp ") line then BExp
  else if startswith (py "Gold:") line then BGold
  else BNone.

(** The body of the loop over the lines. *)
Definition parse_line (d : data) (raw : text) : res data :=
  let line := strip raw in
  match branch_of line with
  | BName => let* v := value_of line in Ok (set_name d v)
  | BClas => try_except (assign_int set_class_id d line) [ValueError] (Ok d)
  | BLevl => try_except (assign_int set_level d line) [ValueError] (Ok d)
  | BExp => try_except (assign_int set_xp d line) [ValueError; IndexError] (Ok d)
  | BGold => try_except (assign_int set_gold d line) [ValueError] (Ok d)
  | BNone => Ok d
  end.

(** The loop, from the initial [data]. *)
Definition parse_lines (lines : list text) : res data :=
  for_each lines parse_line data_init.

(** [parse_player_file] from the point where [content] has been read. *)
Definition parse_content (content : text) : res (option Player) :=
  let* d := parse_lines (splitlines content) in
  match d_name d with
  | [] => Ok None
  | _ :: _ => Ok (Some (Player_of_data d))
  end.

(** ** The file system *)

(** What a path denotes: a file, whose text can be read or not, or a
    directory with its entries in the order the system lists them. *)
#[local] Unset Elimination Schemes.
Inductive node : Type :=
| File (content : option text)
| Dir (entries : list (text * node)).
#[local] Set Elimination Schemes.

(** [path.read_text()] *)
Definition read_text (n : node) : res text :=
  match n with
  | File (Some c) => Ok c
  | File None => Raise OSError
  | Dir _ => Raise IsADirectoryError
  end.

(** [path.is_dir()] *)
Definition is_dir (n : node) : bool :=
  match n with
  | Dir _ => true
  | File _ => false
  end.

(** [path.iterdir()] *)
Definition iterdir (n : node) : res (list (text * node)) :=
  match n with
  | Dir es => Ok es
  | File _ => Raise NotADirectoryError
  end.

(** [path.glob("*.plr")]: the entries of the directory whose name ends in
    [.plr]; nothing when the path is not a directory. *)
Definition glob_plr (n : node) : list (text * node) :=
  match n with
  | Dir es => List.filter (fun e => endswith (py ".plr") (fst e)) es
  | File _ => []
  end.

Definition parse_player_file (filepath : node) : res (option Player) :=
  try_except_any
    (let* content := read_text filepath in parse_content content)
    (Ok None).

(** ** The collector *)

Definition find_all_players (plrfiles_dir : node) : res (list Player) :=
  let* children := iterdir plrfiles_dir in
  for_each children
    (fun players subdir =>
       if negb (is_dir (snd subdir)) then Ok players
       else
         for_each (glob_plr (snd subdir))
           (fun players plr_file =>
              let* player := parse_player_file (snd plr_file) in
              match player with
              | Some p => Ok (players ++ [p])
              | None => Ok players
              end)
           players)
    [].

(** ** Ranking *)

(** The numeric attributes that [sort_key] can name. *)
Inductive sort_key : Set := key_class_id | key_level | key_xp | key_gold.

(** [getattr(p, sort_key)] *)
Definition getattr (p : Player) (k : sort_key) : Z :=
  match k with
  | key_class_id => class_id p
  | key_level => level p
  | key_xp => xp p
  | key_gold => gold p
  end.

Section Sorted.
Context {A : Type} (key : A -> Z).

(** Insertion in front of the first element whose key is not smaller. *)
Fixpoint insert_by (x : A) (l : list A) : list A :=
  match l with
  | [] => [x]
  | y :: l' => if key x <=? key y then x :: l else y :: insert_by x l'
  end.

(** A stable sort by ascending key. *)
Fixpoint stable_sort (l : list A) : list A :=
  match l with
  | [] => []
  | x :: l' => insert_by x (stable_sort l')
  end.

(** [sorted(l, key=key, reverse=reverse)]: the list is sorted by
    ascending key with equal keys in their input order; with [reverse]
    the list is reversed before and after, which keeps equal keys in
    their input order. *)
Definition py_sorted (reverse : bool) (l : list A) : list A :=
  if reverse then rev (stable_sort (rev l)) else stable_sort l.

(** [l[:stop]] *)
Definition slice_to (stop : Z) (l : list A) : list A :=
  if stop <? 0 then firstn (length l - Z.to_nat (- stop)) l
  else firstn (Z.to_nat stop) l.
End Sorted.

(** [sorted(players, key=lambda p: getattr(p, sort_key), reverse=True)[:limit]],
    the first statement of [print_table] and of [print_class_summary]. *)
Definition rank (players : list Player) (k : sort_key) (limit : Z) : list Player :=
  slice_to limit (py_sorted (fun p => getattr p k) true players).

(** ** Formatting *)

Definition digit_char (d : N) : char := (0x30 + d)%N.

Fixpoint text_of_uint (u : Decimal.uint) : text :=
  match u with
  | Decimal.Nil => []
  | Decimal.D0 r => digit_char 0 :: text_of_uint r
  | Decimal.D1 r => digit_char 1 :: text_of_uint r
  | Decimal.D2 r => digit_char 2 :: text_of_uint r
  | Decimal.D3 r => digit_char 3 :: text_of_uint r
  | Decimal.D4 r => digit_char 4 :: text_of_uint r
  | Decimal.D5 r => digit_char 5 :: text_of_uint r
  | Decimal.D6 r => digit_char 6 :: text_of_uint r
  | Decimal.D7 r => digit_char 7 :: text_of_uint r
  | Decimal.D8 r => digit_char 8 :: text_of_uint r
  | Decimal.D9 r => digit_char 9 :: text_of_uint r
  end.

(** The decimal digits of a natural number. *)
Definition digits_of (n : N) : text := text_of_uint (N.to_uint n).

(** A comma after every third digit of a reversed digit string. *)
Fixpoint group_thousands_rev (ds : text) : text :=
  match ds with
  | a :: b :: c :: ((_ :: _) as r) => a :: b :: c :: 0x2C%N :: group_thousands_rev r
  | _ => ds
  end.

Definition with_sign (z : Z) (ds : text) : text :=
  if z <? 0 then 0x2D%N :: ds else ds.

(** [str(z)] *)
Definition str_int (z : Z) : text := with_sign z (digits_of (Z.abs_N z)).

(** [format(z, ",")] *)
Definition str_int_grouped (z : Z) : text :=
  with_sign z (rev (group_thousands_rev (rev (digits_of (Z.abs_N z))))).

(** [format(s, "<w")]: padded with spaces on the right up to [w]. *)
Definition ljust (w : nat) (s : text) : text :=
  s ++ repeat 0x20%N (w - length s).

Definition sort_key_name (k : sort_key) : text :=
  match k with
  | key_class_id => py "class_id"
  | key_level => py "level"
  | key_xp => py "xp"
  | key_gold => py "gold"
  end.

(** [s.upper()] on the attribute names, which are ASCII. *)
Definition upper (s : text) : text :=
  List.map (fun c => if (0x61 <=? c)%N && (c <=? 0x7A)%N then (c - 0x20)%N else c) s.

Definition sp : text := py " ".

(** Each report is the list of the texts given to [print], in order. *)
Definition table_row (k : sort_key) (i : Z) (player : Player) : text :=
  let value := getattr player k in
  let class_display := class_icon player ++ sp ++ class_name player in
  ljust 6 (str_int i) ++ sp ++ ljust 15 (name player) ++ sp
    ++ ljust 12 (str_int_grouped value) ++ sp ++ ljust 18 class_display ++ sp
    ++ ljust 6 (str_int (level player)).

(** [enumerate(l, start)] *)
Fixpoint enumerate {A} (start : Z) (l : list A) : list (Z * A) :=
  match l with
  | [] => []
  | x :: r => (start, x) :: enumerate (start + 1) r
  end.

Definition print_table (title : text) (players : list Player) (k : sort_key) (limit : Z)
  : list text :=
  let sorted_players := rank players k limit in
  [ 0x0A%N :: repeat 0x3D%N 60;
    py "  " ++ title;
    repeat 0x3D%N 60;
    ljust 6 (py "Rank") ++ sp ++ ljust 15 (py "Player") ++ sp
      ++ ljust 12 (upper (sort_key_name k)) ++ sp ++ ljust 18 (py "Class") ++ sp
      ++ ljust 6 (py "Level");
    repeat 0x2D%N 60 ]
  ++ List.map (fun ip => table_row k (fst ip) (snd ip)) (enumerate 1 sorted_players)
  ++ [ [] ].

(** [class_counts[c] = class_counts.get(c, 0) + 1] on an insertion-ordered
    dict: a known key keeps its place, a new one goes last. *)
Fixpoint count_class (c : Z) (counts : list (Z * Z)) : list (Z * Z) :=
  match counts with
  | [] => [(c, 0 + 1)]
  | (c', n) :: r => if c' =? c then (c', n + 1) :: r else (c', n) :: count_class c r
  end.

Definition print_class_summary (players : list Player) (k : sort_key) (limit : Z)
  : list text :=
  let sorted_players := rank players k limit in
  let class_counts := fold_left (fun counts p => count_class (class_id p) counts)
                        sorted_players [] in
  py "Class Distribution:"
  :: List.map
       (fun item =>
          let icon := dict_get CLASS_ICONS (fst item) unknown_icon in
          let name := dict_get CLASS_NAMES (fst item) unknown_name in
          py "  " ++ icon ++ sp ++ name ++ py ": " ++ str_int (snd item)
            ++ py " player(s)")
       (py_sorted (fun x : Z * Z => - snd x) false class_counts).

(** ** The entry point *)

(** What [main] sees of its surroundings: what the two candidate paths
    denote, if anything, and how [absolute()] renders them. *)
Record env : Type := mkEnv {
  script_plrfiles : option node;
  script_plrfiles_abs : text;
  cwd_plrfiles : option node;
  cwd_plrfiles_abs : text
}.

(** [path.exists()] *)
Definition path_exists (o : option node) : bool :=
  match o with
  | Some _ => true
  | None => false
  end.

Definition title_xp : text := 0x1F3C6%N :: py " TOP 10 PLAYERS BY XP".
Definition title_gold : text := 0x1F4B0%N :: py " TOP 10 PLAYERS BY GOLD".

(** [main]: the printed texts and the returned status or the exception
    that leaves it. *)
Definition main (e : env) : list text * res Z :=
  let plrfiles_dir :=
    if negb (path_exists (script_plrfiles e))
    then (cwd_plrfiles e, cwd_plrfiles_abs e)
    else (script_plrfiles e, script_plrfiles_abs e) in
  match fst plrfiles_dir with
  | None =>
      ([ py "Error: Could not find plrfiles directory";
         py "Looked in: " ++ snd plrfiles_dir ], Ok 1)
  | Some dir =>
      let out := [ py "Reading player files from: " ++ snd plrfiles_dir ] in
      match find_all_players dir with
      | Raise ex => (out, Raise ex)
      | Ok players =>
          (out
             ++ [ py "Found " ++ str_int (Z.of_nat (length players)) ++ py " players" ]
             ++ print_table title_xp players key_xp 100
             ++ print_class_summary players key_xp 10
             ++ print_table title_gold players key_gold 100
             ++ print_class_summary players key_gold 10,
           Ok 0)
      end
  end.

(** [exit(main())]: the status the process ends with; an exception that
    leaves [main] ends it with a traceback and status 1. *)
Definition exit_status (r : res Z) : Z :=
  match r with
  | Ok status => status
  | Raise _ => 1
  end.

(** ** The parser, in the words of its specification *)

(** The prefix that makes a stripped line a line of a given field. *)
Definition key_prefix (b : branch) : text :=
  match b with
  | BName => py "Name:"
  | BClas => py "Clas:"
  | BLevl => py "Levl:"
  | BExp => py "Exp "
  | BGold => py "Gold:"
  | BNone => []
  end.

(** The text after the first colon of a line, if it has a colon. *)
Fixpoint after_colon (line : text) : option text :=
  match line with
  | [] => None
  | c :: r => if N.eqb c colon then Some r else after_colon r
  end.

(** The name that a line offers: the trimmed text after the colon of a
    [Name:] line. *)
Definition name_value (raw : text) : option text :=
  let line := strip raw in
  if startswith (key_prefix BName) line
  then option_map strip (after_colon line)
  else None.

(** The integer that a line offers to the numeric field [b]: the line
    starts with the field's prefix and the trimmed text after its first
    colon reads as an integer. *)
Definition int_value (b : branch) (raw : text) : option Z :=
  let line := strip raw in
  if startswith (key_prefix b) line then
    match after_colon line with
    | Some v => match py_int (strip v) with Ok n => Some n | Raise _ => None end
    | None => None
    end
  else None.

(** The numeric fields and where the dict keeps each. *)
Definition is_numeric (b : branch) : bool :=
  match b with
  | BClas | BLevl | BExp | BGold => true
  | BName | BNone => false
  end.

Definition d_field (b : branch) (d : data) : Z :=
  match b with
  | BClas => d_class_id d
  | BLevl => d_level d
  | BExp => d_xp d
  | BGold => d_gold d
  | BName | BNone => 0
  end.

(** The last value offered by the lines of a file, or the default. *)
Definition last_value {A} (offer : text -> option A) (dflt : A) (lines : list text) : A :=
  default dflt (last (omap offer lines)).

(** One line applied to the dict: every field takes the value the line
    offers to it, if any. *)
Definition apply_line (d : data) (raw : text) : data :=
  mkData (default (d_name d) (name_value raw))
         (default (d_class_id d) (int_value BClas raw))
         (default (d_level d) (int_value BLevl raw))
         (default (d_xp d) (int_value BExp raw))
         (default (d_gold d) (int_value BGold raw)).

(** The result of parsing, field by field. *)
Definition parse_spec (lines : list text) : option Player :=
  match last_value name_value [] lines with
  | [] => None
  | n =>
      Some (mkPlayer n
              (last_value (int_value BClas) 0 lines)
              (last_value (int_value BLevl) 0 lines)
              (last_value (int_value BExp) 0 lines)
              (last_value (int_value BGold) 0 lines))
  end.

(** A text file with the given lines, each ended by a line feed. *)
Definition file_of_lines (lines : list text) : text :=
  concat (List.map (fun l => l ++ [0x0A%N]) lines).

(** ** The collector, in the words of its specification *)

(** The record of a file that can be read and parses validly. *)
Definition valid_record (n : node) : option Player :=
  match n with
  | File (Some content) =>
      match parse_content content with
      | Ok (Some p) => Some p
      | _ => None
      end
  | _ => None
  end.

(** The records of the entries of one subdirectory named [*.plr]. *)
Definition records_of_subdir (child : text * node) : list Player :=
  match snd child with
  | Dir es =>
      omap (fun e => if endswith (py ".plr") (fst e) then valid_record (snd e) else None) es
  | File _ => []
  end.

Definition collect_spec (children : list (text * node)) : list Player :=
  concat (List.map records_of_subdir children).

(** ** The entry point, in the words of its specification *)


(** What [main] prints once the records are collected. *)
Definition reports (players : list Player) : list text :=
  [ py "Found " ++ str_int (Z.of_nat (length players)) ++ py " players" ]
    ++ print_table title_xp players key_xp 100
    ++ print_class_summary players key_xp 10
    ++ print_table title_gold players key_gold 100
    ++ print_class_summary players key_gold 10.

(** ** Sample data *)

(** Five records with the currency values 100, 500, 500, 10 and 0. *)
Definition five_players : list Player :=
  [ mkPlayer (py "Ann") 0 10 70 100;
    mkPlayer (py "Bea") 1 20 60 500;
    mkPlayer (py "Cid") 3 30 50 500;
    mkPlayer (py "Dov") 2 40 40 10;
    mkPlayer (py "Eve") 9 50 30 0 ].

(** ** Further vocabulary for the properties below *)

(** The assignment that a numeric branch makes. *)
Definition set_field (b : branch) (d : data) (v : Z) : data :=
  match b with
  | BClas => set_class_id d v
  | BLevl => set_level d v
  | BExp => set_xp d v
  | BGold => set_gold d v
  | BName | BNone => d
  end.

(** The five texts that [print_table] prints before its rows. *)
Definition table_header (title : text) (k : sort_key) : list text :=
  [ 0x0A%N :: repeat 0x3D%N 60;
    py "  " ++ title;
    repeat 0x3D%N 60;
    ljust 6 (py "Rank") ++ sp ++ ljust 15 (py "Player") ++ sp
      ++ ljust 12 (upper (sort_key_name k)) ++ sp ++ ljust 18 (py "Class") ++ sp
      ++ ljust 6 (py "Level");
    repeat 0x2D%N 60 ].






Definition comma : char := 0x2C%N.

(** An ASCII digit. *)
Definition is_ascii_digit (c : char) : bool := (0x30 <=? c)%N && (c <=? 0x39)%N.

(** A line of a player file as the game writes it: the key, a blank and
    the value in plain decimal; the experience key has its colon after a
    blank. *)
Definition field_line (b : branch) (z : Z) : text :=
  key_prefix b ++ (match b with BExp => py ": " | _ => py " " end) ++ str_int z.

(** A text file with the given lines, each ended by the same terminator. *)
Definition lines_with (terminator : text) (lines : list text) : text :=
  concat (List.map (fun l => l ++ terminator) lines).

Definition LF : text := [0x0A%N].
Definition CR : text := [0x0D%N].
Definition CRLF : text := [0x0D%N; 0x0A%N].

(** A line as [splitlines] can return it: without a line boundary. *)
Definition one_line (l : text) : Prop := List.Forall (fun c => is_linebreak c = false) l.

(** * Properties *)

(** ** Text *)

Ltac norm_py :=
  repeat match goal with
         | |- context [py ?s] =>
             let v := eval vm_compute in (py s) in change (py s) with v
         | H : context [py ?s] |- _ =>
             let v := eval vm_compute in (py s) in change (py s) with v in H
         end.

Lemma startswith_app (p s : text) :
  startswith p s = true -> exists r, s = p ++ r.
Proof.
  revert s; induction p as [|a p IH]; intros s H.
  - exists s; reflexivity.
  - destruct s as [|b s]; [discriminate|].
    simpl in H. apply andb_prop in H as [Hab Hps].
    apply N.eqb_eq in Hab; subst b.
    destruct (IH _ Hps) as [r ->]. exists r; reflexivity.
Qed.

Lemma getitem_split_once (pre s : text) :
  getitem (split_once_from colon pre s) 1 =
    match after_colon s with
    | Some v => Ok v
    | None => Raise IndexError
    end.
Proof.
  revert pre; induction s as [|c s IH]; intros pre; simpl.
  - reflexivity.
  - destruct (N.eqb c colon); [reflexivity|apply IH].
Qed.

Lemma value_of_after_colon (line : text) :
  value_of line =
    match after_colon line with
    | Some v => Ok (strip v)
    | None => Raise IndexError
    end.
Proof.
  unfold value_of, split_once. rewrite getitem_split_once.
  destruct (after_colon line); reflexivity.
Qed.

Lemma py_int_raises (s : text) (e : exn) : py_int s = Raise e -> e = ValueError.
Proof.
  unfold py_int. destruct (split_sign _) as [neg body].
  destruct (startswith _ body); [congruence|].
  destruct (scan_digits _ _ _ _) as [[[v n] rest]|]; [|congruence].
  destruct (n =? 0)%N; [congruence|].
  destruct (int_max_str_digits <? n)%N; [congruence|].
  destruct (skip_int_space rest); congruence.
Qed.

(** ** The branches of the parser *)

Lemma prefixes_exclusive (line : text) (b b' : branch) :
  b <> BNone -> b' <> BNone -> b <> b' ->
  startswith (key_prefix b) line = true ->
  startswith (key_prefix b') line = false.
Proof.
  intros Hb Hb' Hne H.
  destruct line as [|c line]; [destruct b; try contradiction; discriminate|].
  destruct b; try contradiction; destruct b'; try contradiction;
    unfold key_prefix in *; norm_py; cbn [startswith] in H |- *;
    apply andb_prop in H as [H _]; apply N.eqb_eq in H; subst c; reflexivity.
Qed.

Lemma branch_of_prefix (b : branch) (line : text) :
  b <> BNone ->
  (branch_of line = b <-> startswith (key_prefix b) line = true).
Proof.
  intros Hb. split.
  - unfold branch_of. intros E.
    destruct (startswith (py "Name:") line) eqn:HN;
      [|destruct (startswith (py "Clas:") line) eqn:HC;
        [|destruct (startswith (py "Levl:") line) eqn:HL;
          [|destruct (startswith (py "Exp ") line) eqn:HE;
            [|destruct (startswith (py "Gold:") line) eqn:HG]]]];
      subst b; try contradiction; assumption.
  - intros H.
    assert (X : forall b', b' <> BNone -> b <> b' ->
                           startswith (key_prefix b') line = false)
      by (intros b' Hb' Hne; exact (prefixes_exclusive line b b' Hb Hb' Hne H)).
    pose proof (X BName) as XN. pose proof (X BClas) as XC.
    pose proof (X BLevl) as XL. pose proof (X BExp) as XE.
    pose proof (X BGold) as XG. clear X.
    unfold branch_of. simpl key_prefix in *.
    destruct b; try contradiction; simpl key_prefix in H;
      rewrite ?XN, ?XC, ?XL, ?XE, ?XG by discriminate; rewrite H; reflexivity.
Qed.

Lemma branch_of_none (line : text) :
  branch_of line = BNone ->
  forall b, b <> BNone -> startswith (key_prefix b) line = false.
Proof.
  intros H b Hb. destruct (startswith (key_prefix b) line) eqn:E; [|reflexivity].
  apply (branch_of_prefix b line Hb) in E. congruence.
Qed.

Lemma branch_of_other (b b' : branch) (line : text) :
  branch_of line = b -> b' <> b -> b' <> BNone ->
  startswith (key_prefix b') line = false.
Proof.
  intros H Hne Hb'. destruct (startswith (key_prefix b') line) eqn:E; [|reflexivity].
  apply (branch_of_prefix b' line Hb') in E. congruence.
Qed.

Lemma after_colon_prefix (b : branch) (line : text) :
  b <> BNone -> b <> BExp -> startswith (key_prefix b) line = true ->
  exists v, after_colon line = Some v.
Proof.
  intros Hb He H. apply startswith_app in H as [r ->].
  destruct b; try contradiction; exists r; reflexivity.
Qed.

(** The assignment of an integer field, with the exceptions that its
    [try] catches: the field takes the integer the line offers. *)
Lemma assign_int_caught (set : data -> Z -> data) (d : data) (line : text)
      (caught : list exn) :
  In ValueError caught ->
  (after_colon line = None -> In IndexError caught) ->
  try_except (assign_int set d line) caught (Ok d) =
    Ok match after_colon line with
       | Some v => match py_int (strip v) with Ok n => set d n | Raise _ => d end
       | None => d
       end.
Proof.
  intros HV HI. unfold assign_int. rewrite value_of_after_colon.
  destruct (after_colon line) as [v|]; simpl.
  - destruct (py_int (strip v)) as [n|e] eqn:E; simpl; [reflexivity|].
    apply py_int_raises in E; subst e.
    destruct (existsb (exn_eqb ValueError) caught) eqn:X; [reflexivity|].
    exfalso. apply Bool.not_true_iff_false in X. apply X.
    apply existsb_exists. exists ValueError. split; [exact HV|reflexivity].
  - destruct (existsb (exn_eqb IndexError) caught) eqn:X; [reflexivity|].
    exfalso. apply Bool.not_true_iff_false in X. apply X.
    apply existsb_exists. exists IndexError. split; [apply HI; reflexivity|reflexivity].
Qed.

(** The loop body never raises and does what [apply_line] says. *)
Lemma parse_line_spec (d : data) (raw : text) :
  parse_line d raw = Ok (apply_line d raw).
Proof.
  unfold parse_line, apply_line, name_value, int_value.
  remember (strip raw) as line eqn:Hline. clear Hline raw.
  destruct (branch_of line) eqn:B.
  - pose proof (proj1 (branch_of_prefix BName line ltac:(discriminate)) B) as HN.
    rewrite HN.
    rewrite (branch_of_other _ BClas _ B), (branch_of_other _ BLevl _ B),
      (branch_of_other _ BExp _ B), (branch_of_other _ BGold _ B) by discriminate.
    rewrite value_of_after_colon.
    destruct (after_colon_prefix BName line ltac:(discriminate) ltac:(discriminate) HN)
      as [v ->].
    destruct d; reflexivity.
  - pose proof (proj1 (branch_of_prefix BClas line ltac:(discriminate)) B) as HN.
    rewrite HN.
    rewrite (branch_of_other _ BName _ B), (branch_of_other _ BLevl _ B),
      (branch_of_other _ BExp _ B), (branch_of_other _ BGold _ B) by discriminate.
    destruct (after_colon_prefix BClas line ltac:(discriminate) ltac:(discriminate) HN)
      as [v Hv].
    rewrite assign_int_caught; [|left; reflexivity|congruence].
    rewrite Hv. destruct (py_int (strip v)); destruct d; reflexivity.
  - pose proof (proj1 (branch_of_prefix BLevl line ltac:(discriminate)) B) as HN.
    rewrite HN.
    rewrite (branch_of_other _ BName _ B), (branch_of_other _ BClas _ B),
      (branch_of_other _ BExp _ B), (branch_of_other _ BGold _ B) by discriminate.
    destruct (after_colon_prefix BLevl line ltac:(discriminate) ltac:(discriminate) HN)
      as [v Hv].
    rewrite assign_int_caught; [|left; reflexivity|congruence].
    rewrite Hv. destruct (py_int (strip v)); destruct d; reflexivity.
  - pose proof (proj1 (branch_of_prefix BExp line ltac:(discriminate)) B) as HN.
    rewrite HN.
    rewrite (branch_of_other _ BName _ B), (branch_of_other _ BClas _ B),
      (branch_of_other _ BLevl _ B), (branch_of_other _ BGold _ B) by discriminate.
    rewrite assign_int_caught; [|left; reflexivity|intros _; right; left; reflexivity].
    destruct (after_colon line) as [v|]; [|destruct d; reflexivity].
    destruct (py_int (strip v)); destruct d; reflexivity.
  - pose proof (proj1 (branch_of_prefix BGold line ltac:(discriminate)) B) as HN.
    rewrite HN.
    rewrite (branch_of_other _ BName _ B), (branch_of_other _ BClas _ B),
      (branch_of_other _ BLevl _ B), (branch_of_other _ BExp _ B) by discriminate.
    destruct (after_colon_prefix BGold line ltac:(discriminate) ltac:(discriminate) HN)
      as [v Hv].
    rewrite assign_int_caught; [|left; reflexivity|congruence].
    rewrite Hv. destruct (py_int (strip v)); destruct d; reflexivity.
  - rewrite (branch_of_none _ B BName), (branch_of_none _ B BClas),
      (branch_of_none _ B BLevl), (branch_of_none _ B BExp),
      (branch_of_none _ B BGold) by discriminate.
    destruct d; reflexivity.
Qed.

(** ** The loop over the lines *)

Lemma for_each_parse_line (lines : list text) (d : data) :
  for_each lines parse_line d = Ok (fold_left apply_line lines d).
Proof.
  revert d; induction lines as [|raw lines IH]; intros d; simpl.
  - reflexivity.
  - rewrite parse_line_spec. simpl. apply IH.
Qed.

Lemma last_value_cons {A} (offer : text -> option A) (dflt : A) (raw : text)
      (lines : list text) :
  last_value offer dflt (raw :: lines) = last_value offer (default dflt (offer raw)) lines.
Proof.
  unfold last_value.
  change (omap offer (raw :: lines))
    with (match offer raw with
          | Some y => y :: omap offer lines
          | None => omap offer lines
          end).
  destruct (offer raw) as [v|]; simpl; [|reflexivity].
  rewrite last_cons. destruct (last (omap offer lines)); reflexivity.
Qed.

Lemma last_value_app {A} (offer : text -> option A) (dflt : A) (l1 l2 : list text) :
  last_value offer dflt (l1 ++ l2) = last_value offer (last_value offer dflt l1) l2.
Proof.
  revert dflt; induction l1 as [|x l1 IH]; intros dflt; simpl.
  - reflexivity.
  - rewrite !last_value_cons. apply IH.
Qed.

Lemma last_value_none {A} (offer : text -> option A) (dflt : A) (lines : list text) :
  Forall (fun raw => offer raw = None) lines -> last_value offer dflt lines = dflt.
Proof.
  induction 1 as [|raw lines Hraw _ IH].
  - reflexivity.
  - rewrite last_value_cons, Hraw. exact IH.
Qed.

Lemma fold_apply_line (lines : list text) (d : data) :
  fold_left apply_line lines d =
    mkData (last_value name_value (d_name d) lines)
           (last_value (int_value BClas) (d_class_id d) lines)
           (last_value (int_value BLevl) (d_level d) lines)
           (last_value (int_value BExp) (d_xp d) lines)
           (last_value (int_value BGold) (d_gold d) lines).
Proof.
  revert d; induction lines as [|raw lines IH]; intros d; simpl.
  - destruct d; reflexivity.
  - rewrite IH, !last_value_cons. reflexivity.
Qed.

(** The parser computes [parse_spec] and never raises. *)
Lemma parse_content_spec (content : text) :
  parse_content content = Ok (parse_spec (splitlines content)).
Proof.
  unfold parse_content, parse_lines, parse_spec.
  rewrite for_each_parse_line, fold_apply_line. simpl.
  destruct (last_value name_value [] (splitlines content)); reflexivity.
Qed.

Lemma parse_lines_spec (lines : list text) :
  parse_lines lines =
    Ok (mkData (last_value name_value [] lines)
               (last_value (int_value BClas) 0 lines)
               (last_value (int_value BLevl) 0 lines)
               (last_value (int_value BExp) 0 lines)
               (last_value (int_value BGold) 0 lines)).
Proof. unfold parse_lines. rewrite for_each_parse_line, fold_apply_line. reflexivity. Qed.

Lemma last_value_last {A} (offer : text -> option A) (dflt : A) (l1 l2 : list text)
      (raw : text) (v : A) :
  offer raw = Some v -> Forall (fun l => offer l = None) l2 ->
  last_value offer dflt (l1 ++ raw :: l2) = v.
Proof.
  intros Hraw Hl2. rewrite last_value_app, last_value_cons, Hraw. simpl.
  apply last_value_none. exact Hl2.
Qed.

(** A line that offers nothing to any field leaves the dict as it is. *)
Lemma apply_line_no_offer (d : data) (raw : text) :
  name_value raw = None -> (forall b, is_numeric b = true -> int_value b raw = None) ->
  apply_line d raw = d.
Proof.
  intros Hn Hi. unfold apply_line.
  rewrite Hn, (Hi BClas), (Hi BLevl), (Hi BExp), (Hi BGold) by reflexivity.
  destruct d; reflexivity.
Qed.

(** A line of a numeric field offers nothing to the other fields. *)
Lemma numeric_line_offers (b : branch) (raw : text) :
  is_numeric b = true -> startswith (key_prefix b) (strip raw) = true ->
  name_value raw = None /\
  forall b', is_numeric b' = true -> b' <> b -> int_value b' raw = None.
Proof.
  intros Hb H.
  assert (Hb0 : b <> BNone) by (destruct b; discriminate).
  split.
  - unfold name_value.
    rewrite (prefixes_exclusive _ b BName Hb0) by (destruct b; discriminate || exact H).
    reflexivity.
  - intros b' Hb' Hne. unfold int_value.
    assert (Hb'0 : b' <> BNone) by (destruct b'; discriminate).
    rewrite (prefixes_exclusive _ b b' Hb0 Hb'0 (fun E => Hne (eq_sym E)) H).
    reflexivity.
Qed.

Lemma malformed_line_ignored (b : branch) (d : data) (raw : text) :
  is_numeric b = true -> startswith (key_prefix b) (strip raw) = true ->
  int_value b raw = None -> apply_line d raw = d.
Proof.
  intros Hb H Hv. destruct (numeric_line_offers b raw Hb H) as [Hn Ho].
  apply apply_line_no_offer; [exact Hn|].
  intros b' Hb'. destruct (decide (b' = b)) as [->|Hne]; [exact Hv|].
  apply Ho; assumption.
Qed.

(** ** The claims on the parser *)

(** C2, as stated, fails: the file with the lines [Name: A] and
    [Levl: -5] yields a record whose level is -5, which is negative. *)
Lemma negative_level_counterexample :
  let content := file_of_lines [py "Name: A"; py "Levl: -5"] in
  exists p, parse_content content = Ok (Some p) /\ level p = -5 /\ ~ 0 <= level p.
Proof.
  exists (mkPlayer (py "A") 0 (-5) 0 0).
  split; [vm_compute; reflexivity|]. split; [reflexivity|]. simpl. lia.
Qed.

(** C2, amended: every record the parser produces has a non-empty name,
    and its level, experience and currency are integers, each the last
    integer a line of the file offers for its key and 0 when no line offers
    one (key absent or value unparsable).  Nothing makes them
    non-negative. *)
Theorem parsed_record_invariant (content : text) (p : Player) :
  parse_content content = Ok (Some p) ->
  let lines := splitlines content in
  name p <> [] /\
  level p = last_value (int_value BLevl) 0 lines /\
  xp p = last_value (int_value BExp) 0 lines /\
  gold p = last_value (int_value BGold) 0 lines /\
  (Forall (fun raw => int_value BLevl raw = None) lines -> level p = 0) /\
  (Forall (fun raw => int_value BExp raw = None) lines -> xp p = 0) /\
  (Forall (fun raw => int_value BGold raw = None) lines -> gold p = 0).
Proof.
  intros H lines. rewrite parse_content_spec in H. unfold parse_spec in H.
  fold lines in H.
  destruct (last_value name_value [] lines) as [|c n] eqn:Hn; [discriminate|].
  injection H as <-. simpl.
  repeat split; try discriminate; intros Hall; apply last_value_none; exact Hall.
Qed.

(** C2, amended, on the file with the lines [Name: A] and [Levl: -5]. *)
Lemma parsed_record_invariant_witness :
  parse_content (file_of_lines [py "Name: A"; py "Levl: -5"])
    = Ok (Some (mkPlayer (py "A") 0 (-5) 0 0)) /\
  name (mkPlayer (py "A") 0 (-5) 0 0) <> [] /\
  level (mkPlayer (py "A") 0 (-5) 0 0) = -5 /\
  xp (mkPlayer (py "A") 0 (-5) 0 0) = 0.
Proof.
  assert (H : parse_content (file_of_lines [py "Name: A"; py "Levl: -5"])
              = Ok (Some (mkPlayer (py "A") 0 (-5) 0 0)))
    by (vm_compute; reflexivity).
  destruct (parsed_record_invariant _ _ H) as (Hn & _ & _ & _ & _ & Hx & _).
  split; [exact H|]. split; [exact Hn|]. split; [reflexivity|].
  apply Hx.
  replace (splitlines (file_of_lines [py "Name: A"; py "Levl: -5"]))
    with [py "Name: A"; py "Levl: -5"] by (vm_compute; reflexivity).
  constructor; [vm_compute; reflexivity|].
  constructor; [vm_compute; reflexivity|].
  constructor.
Defined.

(** C3, as stated, fails: in the file with the lines [Name: A] and
    [Exp 1234] the experience line has the token, a space and an integer
    and no colon; the record's experience is 0, not 1234. *)
Lemma exp_without_colon_counterexample :
  let content := file_of_lines [py "Name: A"; py "Exp 1234"] in
  startswith (py "Exp ") (py "Exp 1234") = true /\
  ~ In colon (py "Exp 1234") /\
  py_int (py "1234") = Ok 1234 /\
  exists p, parse_content content = Ok (Some p) /\ xp p = 0 /\ xp p <> 1234.
Proof.
  split; [reflexivity|]. split; [vm_compute; intuition discriminate|].
  split; [vm_compute; reflexivity|].
  exists (mkPlayer (py "A") 0 0 0 0).
  split; [vm_compute; reflexivity|]. split; [reflexivity|discriminate].
Qed.

Lemma after_colon_app (pad v : text) :
  ~ In colon pad -> after_colon (pad ++ colon :: v) = Some v.
Proof.
  induction pad as [|c pad IH]; intros Hpad; simpl.
  - reflexivity.
  - destruct (N.eqb_spec c colon) as [->|_].
    + exfalso. apply Hpad. left. reflexivity.
    + apply IH. intros Hin. apply Hpad. right. exact Hin.
Qed.

(** C3, amended: when a file has a name and an experience line made of the
    token [Exp], a space, any text without a colon, a colon and then an
    integer (as in [Exp : 1234]), and no later line offers another
    experience, the record's experience is that integer.  An experience
    line without a colon leaves the dict as it is. *)
Theorem exp_line_with_colon (content : text) (l1 l2 : list text)
        (raw pad v : text) (n : Z) :
  splitlines content = l1 ++ raw :: l2 ->
  strip raw = py "Exp " ++ pad ++ colon :: v ->
  ~ In colon pad ->
  py_int (strip v) = Ok n ->
  Forall (fun l => int_value BExp l = None) l2 ->
  last_value name_value [] (splitlines content) <> [] ->
  (exists p, parse_content content = Ok (Some p) /\ xp p = n) /\
  (forall d raw', startswith (py "Exp ") (strip raw') = true ->
                  after_colon (strip raw') = None -> parse_line d raw' = Ok d).
Proof.
  intros Hlines Hraw Hpad Hint Hl2 Hname. split.
  - rewrite parse_content_spec. unfold parse_spec.
    destruct (last_value name_value [] (splitlines content)) as [|c nm] eqn:Hn;
      [contradiction|].
    eexists. split; [reflexivity|]. simpl.
    rewrite Hlines. apply last_value_last; [|exact Hl2].
    unfold int_value. rewrite Hraw. simpl key_prefix.
    assert (Hs : startswith (py "Exp ") (py "Exp " ++ pad ++ colon :: v) = true)
      by reflexivity.
    rewrite Hs.
    assert (Ha : after_colon (py "Exp " ++ pad ++ colon :: v) = Some v)
      by (apply (after_colon_app (py "Exp " ++ pad) v); intros Hin;
          apply in_app_or in Hin as [Hin|Hin];
          [vm_compute in Hin; intuition discriminate|contradiction]).
    rewrite Ha, Hint. reflexivity.
  - intros d raw' Hs Ha. rewrite parse_line_spec. f_equal.
    apply (malformed_line_ignored BExp); [reflexivity|exact Hs|].
    unfold int_value. simpl key_prefix. rewrite Hs, Ha. reflexivity.
Qed.

(** C3, amended, on the file with the lines [Name: A] and [Exp : 1234]. *)
Lemma exp_line_with_colon_witness :
  (exists p, parse_content (file_of_lines [py "Name: A"; py "Exp : 1234"])
             = Ok (Some p) /\ xp p = 1234) /\
  (forall d raw', startswith (py "Exp ") (strip raw') = true ->
                  after_colon (strip raw') = None -> parse_line d raw' = Ok d).
Proof.
  apply (exp_line_with_colon
           (file_of_lines [py "Name: A"; py "Exp : 1234"])
           [py "Name: A"] [] (py "Exp : 1234") [] (py " 1234") 1234).
  - vm_compute. reflexivity.
  - vm_compute. reflexivity.
  - intros H. exact H.
  - vm_compute. reflexivity.
  - constructor.
  - vm_compute. discriminate.
Defined.

(** C4: a stripped line takes the experience branch if and only if it
    starts with [Exp] and a space; no other line changes the experience;
    [Exp : 1234] sets the experience to 1234 and [Exp: 1234] leaves it at
    its default 0. *)
Theorem exp_recognised_by_space_prefix :
  (forall raw, branch_of (strip raw) = BExp <->
               startswith (py "Exp ") (strip raw) = true) /\
  (forall d raw, branch_of (strip raw) <> BExp ->
                 exists d', parse_line d raw = Ok d' /\ d_xp d' = d_xp d) /\
  parse_line data_init (py "Exp : 1234") = Ok (set_xp data_init 1234) /\
  parse_line data_init (py "Exp: 1234") = Ok data_init /\
  parse_content (file_of_lines [py "Name: A"; py "Exp : 1234"])
    = Ok (Some (mkPlayer (py "A") 0 0 1234 0)) /\
  parse_content (file_of_lines [py "Name: A"; py "Exp: 1234"])
    = Ok (Some (mkPlayer (py "A") 0 0 0 0)).
Proof.
  split; [|split].
  - intros raw. apply (branch_of_prefix BExp). discriminate.
  - intros d raw Hb. rewrite parse_line_spec. eexists. split; [reflexivity|].
    unfold apply_line. simpl. unfold int_value.
    destruct (startswith (key_prefix BExp) (strip raw)) eqn:E; [|reflexivity].
    apply (branch_of_prefix BExp) in E; [contradiction|discriminate].
  - repeat split; vm_compute; reflexivity.
Qed.

(** C5, as stated, fails: the file with the lines [Name: Alice] and
    [Name:] contains a Name line with the non-empty value Alice, yet the
    parser returns no record. *)
Lemma later_empty_name_counterexample :
  let content := file_of_lines [py "Name: Alice"; py "Name:"] in
  parse_content content = Ok None /\
  exists raw, In raw (splitlines content) /\
              name_value raw = Some (py "Alice") /\ py "Alice" <> [].
Proof.
  split; [vm_compute; reflexivity|].
  exists (py "Name: Alice"). split; [vm_compute; left; reflexivity|].
  split; [vm_compute; reflexivity|discriminate].
Qed.

(** C5, amended: the parser returns no record if and only if the text has
    no Name line or the value of its last Name line is empty; so it does
    when no Name line has a non-empty value.  Whenever the last Name line
    has a non-empty value a record with that name is produced, whatever the
    other lines are; the parser never raises. *)
Theorem no_record_iff_last_name_empty (content : text) :
  let lines := splitlines content in
  (parse_content content = Ok None <-> last_value name_value [] lines = []) /\
  (Forall (fun raw => name_value raw = None \/ name_value raw = Some []) lines ->
   parse_content content = Ok None) /\
  (last_value name_value [] lines <> [] ->
   exists p, parse_content content = Ok (Some p) /\
             name p = last_value name_value [] lines) /\
  (exists r, parse_content content = Ok r).
Proof.
  intros lines. rewrite parse_content_spec. unfold parse_spec. fold lines.
  split; [|split; [|split]].
  - destruct (last_value name_value [] lines); split; congruence.
  - intros Hall.
    assert (G : forall dflt, dflt = [] -> last_value name_value dflt lines = []).
    { induction Hall as [|raw rest Hraw _ IH]; intros dflt Hd.
      - exact Hd.
      - rewrite last_value_cons. apply IH.
        destruct Hraw as [-> | ->]; [exact Hd|reflexivity]. }
    pose proof (G [] eq_refl) as E.
    rewrite E. reflexivity.
  - intros Hne. destruct (last_value name_value [] lines); [contradiction|].
    eexists. split; reflexivity.
  - eexists. reflexivity.
Qed.

(** C6: the file [Name: Alice] yields the record Alice with class 0 (the
    Magic User) and level, experience and currency 0.  A line of a numeric
    key whose value is not an integer leaves the dict as it is, so the file
    parses as if the line were not there, and a field whose lines are all
    of this kind is 0; [Levl: abc] between a name and a currency line is an
    instance. *)
Theorem defaults_and_malformed_values :
  parse_content (py "Name: Alice") = Ok (Some (mkPlayer (py "Alice") 0 0 0 0)) /\
  class_name (mkPlayer (py "Alice") 0 0 0 0) = py "Magic User" /\
  (forall b d raw,
      is_numeric b = true -> startswith (key_prefix b) (strip raw) = true ->
      int_value b raw = None -> parse_line d raw = Ok d) /\
  (forall b l1 raw l2,
      is_numeric b = true -> startswith (key_prefix b) (strip raw) = true ->
      int_value b raw = None -> parse_lines (l1 ++ raw :: l2) = parse_lines (l1 ++ l2)) /\
  (forall b lines,
      is_numeric b = true -> Forall (fun raw => int_value b raw = None) lines ->
      exists d, parse_lines lines = Ok d /\ d_field b d = 0) /\
  int_value BLevl (py "Levl: abc") = None /\
  parse_content (file_of_lines [py "Name: Bob"; py "Levl: abc"; py "Gold: 7"])
    = Ok (Some (mkPlayer (py "Bob") 0 0 0 7)).
Proof.
  split; [vm_compute; reflexivity|]. split; [vm_compute; reflexivity|].
  split; [|split; [|split; [|split]]].
  - intros b d raw Hb H Hv. rewrite parse_line_spec. f_equal.
    exact (malformed_line_ignored b d raw Hb H Hv).
  - intros b l1 raw l2 Hb H Hv. unfold parse_lines.
    rewrite !for_each_parse_line, !fold_left_app. simpl.
    rewrite (malformed_line_ignored b _ raw Hb H Hv). reflexivity.
  - intros b lines Hb Hall. rewrite parse_lines_spec. eexists. split; [reflexivity|].
    destruct b; try discriminate; simpl; apply last_value_none; exact Hall.
  - vm_compute. reflexivity.
  - vm_compute. reflexivity.
Qed.

Lemma class_lookup_unknown {V} (m : gmap Z V) (c : Z) (dflt : V) :
  m !! c = None -> dict_get m c dflt = dflt.
Proof. intros H. unfold dict_get. rewrite H. reflexivity. Qed.

(** C9: for a class code outside 0..3 the class name is [Unknown] and the
    icon is the question mark; both lookups are functions of the record,
    defined for every integer code; the file with the lines [Name: A] and
    [Clas: 9] still yields a record, of class 9. *)
Theorem unknown_class_fallback (p : Player) :
  class_id p < 0 \/ 3 < class_id p ->
  class_name p = py "Unknown" /\
  class_icon p = [0x2753%N] /\
  (forall q : Player, exists n i, class_name q = n /\ class_icon q = i) /\
  parse_content (file_of_lines [py "Name: A"; py "Clas: 9"])
    = Ok (Some (mkPlayer (py "A") 9 0 0 0)).
Proof.
  intros H. split; [|split; [|split]].
  - unfold class_name. apply class_lookup_unknown. unfold CLASS_NAMES.
    rewrite !lookup_insert_ne by lia. apply lookup_empty.
  - unfold class_icon. apply class_lookup_unknown. unfold CLASS_ICONS.
    rewrite !lookup_insert_ne by lia. apply lookup_empty.
  - intros q. eexists. eexists. split; reflexivity.
  - vm_compute. reflexivity.
Qed.

(** C9 on a record of class 9. *)
Lemma unknown_class_fallback_witness :
  class_name (mkPlayer (py "A") 9 0 0 0) = py "Unknown" /\
  class_icon (mkPlayer (py "A") 9 0 0 0) = [0x2753%N].
Proof.
  destruct (unknown_class_fallback (mkPlayer (py "A") 9 0 0 0)) as (Hn & Hi & _).
  - right. simpl. lia.
  - split; [exact Hn|exact Hi].
Defined.

(** C10: each field of the result is the last value that a line of the
    file offers to it: the last integer-parsable value of its key for a
    numeric field (a later malformed value offers nothing and leaves the
    earlier one), 0 when there is none; the value of the last Name line for
    the name, and when that value is empty there is no record. *)
Theorem last_occurrence_wins (content : text) :
  let lines := splitlines content in
  parse_content content =
    Ok match last_value name_value [] lines with
       | [] => None
       | n =>
           Some (mkPlayer n
                   (last_value (int_value BClas) 0 lines)
                   (last_value (int_value BLevl) 0 lines)
                   (last_value (int_value BExp) 0 lines)
                   (last_value (int_value BGold) 0 lines))
       end /\
  (forall (A : Type) (offer : text -> option A) (dflt v : A) l1 raw l2,
      lines = l1 ++ raw :: l2 -> offer raw = Some v ->
      Forall (fun l => offer l = None) l2 ->
      last_value offer dflt lines = v) /\
  parse_content (file_of_lines [py "Name: A"; py "Gold: 5"; py "Gold: 7"; py "Gold: x"])
    = Ok (Some (mkPlayer (py "A") 0 0 0 7)) /\
  parse_content (file_of_lines [py "Name: A"; py "Gold: 5"; py "Name: B"])
    = Ok (Some (mkPlayer (py "B") 0 0 0 5)) /\
  parse_content (file_of_lines [py "Name: A"; py "Gold: 5"; py "Name:"]) = Ok None.
Proof.
  intros lines. split; [|split].
  - apply parse_content_spec.
  - intros A offer dflt v l1 raw l2 -> Hraw Hl2.
    apply last_value_last; assumption.
  - repeat split; vm_compute; reflexivity.
Qed.

(** ** The collector *)

(** Reading and parsing one file never raises: a file that cannot be read,
    a directory or a text without a name give [None]. *)
Lemma parse_player_file_spec (filepath : node) :
  parse_player_file filepath = Ok (valid_record filepath).
Proof.
  unfold parse_player_file, valid_record.
  destruct filepath as [[content|]|es]; simpl; try reflexivity.
  rewrite parse_content_spec. simpl. destruct (parse_spec _); reflexivity.
Qed.

Lemma omap_filter_entries (keep : text * node -> bool) (es : list (text * node)) :
  omap (fun e => valid_record (snd e)) (List.filter keep es) =
  omap (fun e => if keep e then valid_record (snd e) else None) es.
Proof.
  induction es as [|e es IH]; [reflexivity|].
  cbn [List.filter].
  change (omap ?f (e :: es))
    with (match f e with Some y => y :: omap f es | None => omap f es end).
  cbv beta. destruct (keep e); [|exact IH].
  change (omap ?f (e :: List.filter keep es))
    with (match f e with
          | Some y => y :: omap f (List.filter keep es)
          | None => omap f (List.filter keep es)
          end).
  cbv beta. rewrite IH. reflexivity.
Qed.

(** The inner loop appends the valid records of the files, in order. *)
Lemma inner_loop_spec (files : list (text * node)) (players : list Player) :
  for_each files
    (fun players plr_file =>
       let* player := parse_player_file (snd plr_file) in
       match player with
       | Some p => Ok (players ++ [p])
       | None => Ok players
       end)
    players
  = Ok (players ++ omap (fun e => valid_record (snd e)) files).
Proof.
  revert players; induction files as [|f files IH]; intros players; simpl.
  - rewrite app_nil_r. reflexivity.
  - rewrite parse_player_file_spec. simpl.
    destruct (valid_record (snd f)) as [p|]; simpl; rewrite IH.
    + rewrite <- app_assoc. reflexivity.
    + reflexivity.
Qed.

Lemma glob_plr_records (child : text * node) :
  omap (fun e => valid_record (snd e)) (glob_plr (snd child)) = records_of_subdir child.
Proof.
  unfold glob_plr, records_of_subdir. destruct (snd child) as [c|es]; [reflexivity|].
  apply omap_filter_entries.
Qed.

Lemma outer_loop_spec (children : list (text * node)) (players : list Player) :
  for_each children
    (fun players subdir =>
       if negb (is_dir (snd subdir)) then Ok players
       else
         for_each (glob_plr (snd subdir))
           (fun players plr_file =>
              let* player := parse_player_file (snd plr_file) in
              match player with
              | Some p => Ok (players ++ [p])
              | None => Ok players
              end)
           players)
    players
  = Ok (players ++ collect_spec children).
Proof.
  revert players; induction children as [|child children IH]; intros players.
  - simpl. rewrite app_nil_r. reflexivity.
  - cbn [for_each]. unfold collect_spec. cbn [List.map concat].
    fold (collect_spec children).
    destruct (is_dir (snd child)) eqn:Hdir; cbn [negb].
    + rewrite inner_loop_spec, glob_plr_records. cbn [bind].
      rewrite IH, app_assoc. reflexivity.
    + cbn [bind]. rewrite IH.
      unfold records_of_subdir. destruct (snd child); [reflexivity|discriminate].
Qed.

Lemma find_all_players_spec (children : list (text * node)) :
  find_all_players (Dir children) = Ok (collect_spec children).
Proof. unfold find_all_players. simpl. apply outer_loop_spec. Qed.

(** C8: on a root directory the collector returns, without raising, the
    records of the readable, validly parsing files named [*.plr] that lie
    directly in the subdirectories of the root: children of the root that
    are not directories contribute nothing, nor do unreadable files, files
    of another name, or files one level further down.  A root with one
    plain file and one subdirectory that holds two valid record files and
    one unreadable one yields exactly the two records. *)
Theorem collector_returns_valid_records (children : list (text * node)) :
  find_all_players (Dir children) = Ok (collect_spec children) /\
  (forall nm c, records_of_subdir (nm, File c) = []) /\
  (forall nm, valid_record (File None) = None /\
              records_of_subdir (nm, Dir [(py "x.plr", File None)]) = []) /\
  find_all_players
    (Dir [ (py "README", File (Some (py "Name: Nobody")));
           (py "A",
            Dir [ (py "alice.plr", File (Some (file_of_lines [py "Name: Alice"; py "Gold: 5"])));
                  (py "broken.plr", File None);
                  (py "amy.plr", File (Some (py "Name: Amy"))) ]) ])
    = Ok [ mkPlayer (py "Alice") 0 0 0 5; mkPlayer (py "Amy") 0 0 0 0 ] /\
  find_all_players
    (Dir [ (py "B",
            Dir [ (py "bob.txt", File (Some (py "Name: Bob")));
                  (py "deep", Dir [ (py "carol.plr", File (Some (py "Name: Carol"))) ]);
                  (py "dir.plr", Dir []);
                  (py "anon.plr", File (Some (py "Levl: 3"))) ]) ])
    = Ok [].
Proof.
  split; [apply find_all_players_spec|].
  split; [reflexivity|]. split; [intros nm; split; reflexivity|].
  split; vm_compute; reflexivity.
Qed.

(** ** The entry point *)




(** With no valid record both tables have their header and no row. *)
Lemma reports_empty :
  reports [] =
    [ py "Found 0 players" ]
    ++ print_table title_xp [] key_xp 100 ++ [ py "Class Distribution:" ]
    ++ print_table title_gold [] key_gold 100 ++ [ py "Class Distribution:" ]
  /\ length (print_table title_xp [] key_xp 100) = 6%nat
  /\ length (print_table title_gold [] key_gold 100) = 6%nat.
Proof. repeat split. Qed.



(** C7 does not hold of the code: when the first candidate path exists and
    is a regular file, [main] passes its existence test, prints the line
    that announces the reading, and the listing of the path raises
    [NotADirectoryError], which nothing catches: no diagnostic naming the
    path is printed, no report is printed, and [main] returns neither 1
    nor 0. *)
Theorem main_raises_on_regular_file :
  let e := mkEnv (Some (File (Some []))) (py "/mud/lib/plrfiles")
                 None (py "/home/lib/plrfiles") in
  path_exists (script_plrfiles e) = true /\
  main e = ([ py "Reading player files from: /mud/lib/plrfiles" ],
            Raise NotADirectoryError) /\
  snd (main e) <> Ok 0 /\ snd (main e) <> Ok 1 /\
  exit_status (snd (main e)) = 1.
Proof.
  split; [reflexivity|]. split; [vm_compute; reflexivity|].
  split; [discriminate|]. split; [discriminate|reflexivity].
Qed.

(** ** Ranking *)

Section StableSort.
Context {A : Type} (key : A -> Z).

Let asc (a b : A) : Prop := key a <= key b.
Let desc (a b : A) : Prop := key a >= key b.
Let has_key (v : Z) (a : A) : bool := key a =? v.

Lemma insert_by_perm (x : A) (l : list A) : Permutation (insert_by key x l) (x :: l).
Proof.
  induction l as [|y l IH]; simpl.
  - apply Permutation_refl.
  - destruct (key x <=? key y).
    + apply Permutation_refl.
    + apply Permutation_trans with (y :: x :: l).
      * apply perm_skip. exact IH.
      * apply perm_swap.
Qed.

Lemma stable_sort_perm (l : list A) : Permutation (stable_sort key l) l.
Proof.
  induction l as [|x l IH]; simpl.
  - apply perm_nil.
  - apply Permutation_trans with (x :: stable_sort key l).
    + apply insert_by_perm.
    + apply perm_skip. exact IH.
Qed.

Lemma insert_by_sorted (x : A) (l : list A) :
  StronglySorted asc l -> StronglySorted asc (insert_by key x l).
Proof.
  induction 1 as [|y l Hl IH Hy]; simpl.
  - constructor; constructor.
  - destruct (Z.leb_spec (key x) (key y)) as [Hxy|Hxy].
    + constructor.
      * constructor; assumption.
      * constructor; [exact Hxy|].
        eapply List.Forall_impl; [|exact Hy].
        intros a Ha. unfold asc in *. lia.
    + constructor; [exact IH|].
      assert (Hin : List.Forall (asc y) (x :: l))
        by (constructor; [unfold asc; lia|exact Hy]).
      eapply Permutation_Forall; [|exact Hin].
      apply Permutation_sym, insert_by_perm.
Qed.

Lemma stable_sort_sorted (l : list A) : StronglySorted asc (stable_sort key l).
Proof.
  induction l as [|x l IH]; simpl.
  - constructor.
  - apply insert_by_sorted. exact IH.
Qed.

(** Insertion keeps the elements of each key in their order: the new
    element goes in front of those of its own key. *)
Lemma insert_by_stable (v : Z) (x : A) (l : list A) :
  List.filter (has_key v) (insert_by key x l) = List.filter (has_key v) (x :: l).
Proof.
  induction l as [|y l IH].
  - reflexivity.
  - cbn [insert_by]. destruct (Z.leb_spec (key x) (key y)) as [Hxy|Hxy].
    + reflexivity.
    + cbn [List.filter] in *. rewrite IH. unfold has_key.
      destruct (Z.eqb_spec (key x) v), (Z.eqb_spec (key y) v); try reflexivity.
      lia.
Qed.

Lemma stable_sort_stable (v : Z) (l : list A) :
  List.filter (has_key v) (stable_sort key l) = List.filter (has_key v) l.
Proof.
  induction l as [|x l IH].
  - reflexivity.
  - cbn [stable_sort]. rewrite insert_by_stable. cbn [List.filter].
    rewrite IH. reflexivity.
Qed.

Lemma sorted_snoc (R : A -> A -> Prop) (l : list A) (x : A) :
  StronglySorted R l -> List.Forall (fun y => R y x) l -> StronglySorted R (l ++ [x]).
Proof.
  induction 1 as [|y l Hl IH Hy]; intros Hx; simpl.
  - constructor; constructor.
  - inversion Hx as [|? ? Hyx Hlx]; subst.
    constructor; [apply IH; exact Hlx|].
    apply List.Forall_app. split; [exact Hy|].
    constructor; [exact Hyx|constructor].
Qed.

Lemma sorted_rev (l : list A) : StronglySorted asc l -> StronglySorted desc (rev l).
Proof.
  induction 1 as [|y l Hl IH Hy]; simpl.
  - constructor.
  - apply sorted_snoc; [exact IH|].
    apply List.Forall_rev. eapply List.Forall_impl; [|exact Hy].
    intros a Ha. unfold asc, desc in *. lia.
Qed.

Lemma filter_rev_eq (f : A -> bool) (l : list A) :
  List.filter f (rev l) = rev (List.filter f l).
Proof.
  induction l as [|x l IH]; [reflexivity|].
  simpl. rewrite List.filter_app, IH. simpl.
  destruct (f x); simpl; [reflexivity|apply app_nil_r].
Qed.

(** [sorted(l, key=key, reverse=True)] is a permutation of [l], is
    sorted by descending key and keeps equal keys in input order. *)
Lemma py_sorted_reverse_spec (l : list A) :
  Permutation (py_sorted key true l) l /\
  StronglySorted desc (py_sorted key true l) /\
  forall v, List.filter (has_key v) (py_sorted key true l) = List.filter (has_key v) l.
Proof.
  unfold py_sorted. split; [|split].
  - apply Permutation_trans with (stable_sort key (rev l)).
    + apply Permutation_sym, Permutation_rev.
    + apply Permutation_trans with (rev l).
      * apply stable_sort_perm.
      * apply Permutation_sym, Permutation_rev.
  - apply sorted_rev, stable_sort_sorted.
  - intros v. rewrite filter_rev_eq, stable_sort_stable, filter_rev_eq.
    apply rev_involutive.
Qed.

Lemma sorted_firstn (R : A -> A -> Prop) (n : nat) (l : list A) :
  StronglySorted R l -> StronglySorted R (firstn n l).
Proof.
  intros H. revert n. induction H as [|y l Hl IH Hy]; intros [|n]; simpl;
    try constructor.
  - apply IH.
  - apply List.Forall_forall. intros a Ha.
    apply (proj1 (List.Forall_forall _ _) Hy).
    rewrite <- (firstn_skipn n l). apply in_or_app. left. exact Ha.
Qed.

Lemma filter_firstn_prefix (f : A -> bool) (n : nat) (l : list A) :
  exists rest, List.filter f l = List.filter f (firstn n l) ++ rest.
Proof.
  exists (List.filter f (skipn n l)).
  rewrite <- List.filter_app, firstn_skipn. reflexivity.
Qed.
End StableSort.

(** C1, as stated, fails for a negative limit: [l[:-1]] drops the last
    entry, so the five sample records ranked with limit -1 give four
    entries, which is more than the limit. *)
Lemma negative_limit_counterexample :
  List.map name (rank five_players key_gold (-1))
    = [py "Bea"; py "Cid"; py "Ann"; py "Dov"] /\
  length (rank five_players key_gold (-1)) = 4%nat /\
  ~ Z.of_nat (length (rank five_players key_gold (-1))) <= -1.
Proof.
  split; [vm_compute; reflexivity|]. split; [vm_compute; reflexivity|].
  vm_compute. intros H. apply H. reflexivity.
Qed.

(** C1, amended: for every list of records, every numeric field and every
    limit that is not negative, [rank] is the first [limit] entries of a
    list that is a permutation of the records, sorted by descending field
    value, with the records of each field value in their input order; so it
    has at most [limit] entries, is sorted, and lists for each value a
    prefix of the input's records of that value.  Five records with the
    currency values 100, 500, 500, 10 and 0 ranked with limit 3 give the
    second, the third and the first. *)
Theorem rank_sorted_stable_truncated (players : list Player) (k : sort_key) (limit : Z) :
  0 <= limit ->
  let key := fun p => getattr p k in
  let ranked := rank players k limit in
  (exists sorted,
      Permutation sorted players /\
      StronglySorted (fun a b => key a >= key b) sorted /\
      (forall v, List.filter (fun p => key p =? v) sorted
                 = List.filter (fun p => key p =? v) players) /\
      ranked = firstn (Z.to_nat limit) sorted) /\
  Z.of_nat (length ranked) <= limit /\
  StronglySorted (fun a b => key a >= key b) ranked /\
  (forall v, exists rest,
        List.filter (fun p => key p =? v) players
        = List.filter (fun p => key p =? v) ranked ++ rest) /\
  (forall p1 p2 p3 p4 p5,
      gold p1 = 100 -> gold p2 = 500 -> gold p3 = 500 -> gold p4 = 10 -> gold p5 = 0 ->
      rank [p1; p2; p3; p4; p5] key_gold 3 = [p2; p3; p1]).
Proof.
  intros Hlimit key ranked.
  destruct (py_sorted_reverse_spec key players) as (Hperm & Hsorted & Hstable).
  assert (Hranked : ranked = firstn (Z.to_nat limit) (py_sorted key true players)).
  { unfold ranked, rank, slice_to. fold key.
    destruct (Z.ltb_spec limit 0); [lia|reflexivity]. }
  split; [|split; [|split; [|split]]].
  - exists (py_sorted key true players). repeat split; assumption.
  - rewrite Hranked, length_firstn. lia.
  - rewrite Hranked. apply sorted_firstn. exact Hsorted.
  - intros v. rewrite Hranked, <- (Hstable v). apply filter_firstn_prefix.
  - intros p1 p2 p3 p4 p5 H1 H2 H3 H4 H5.
    unfold rank, py_sorted, slice_to. cbn [rev app stable_sort].
    repeat (cbn [insert_by getattr]; rewrite ?H1, ?H2, ?H3, ?H4, ?H5;
            change (100 <=? 500) with true; change (500 <=? 100) with false;
            change (500 <=? 500) with true; change (10 <=? 500) with true;
            change (10 <=? 100) with true; change (0 <=? 10) with true;
            cbv iota).
    reflexivity.
Qed.

(** C1, amended, on the five sample records with limit 3. *)
Lemma rank_sorted_stable_truncated_witness :
  Z.of_nat (length (rank five_players key_gold 3)) <= 3 /\
  rank five_players key_gold 3
    = [ mkPlayer (py "Bea") 1 20 60 500;
        mkPlayer (py "Cid") 3 30 50 500;
        mkPlayer (py "Ann") 0 10 70 100 ].
Proof.
  destruct (rank_sorted_stable_truncated five_players key_gold 3 ltac:(lia))
    as (_ & Hlen & _ & _ & Hfive).
  split; [exact Hlen|].
  apply Hfive; reflexivity.
Defined.

(** * Further properties of the code *)

(** ** The parser: what a line can and cannot do *)

Lemma name_value_branch (raw v : text) :
  name_value raw = Some v -> branch_of (strip raw) = BName.
Proof.
  unfold name_value. destruct (startswith (key_prefix BName) (strip raw)) eqn:E;
    [|discriminate].
  intros _. apply (branch_of_prefix BName); [discriminate|exact E].
Qed.

Lemma int_value_branch (b : branch) (raw : text) (n : Z) :
  is_numeric b = true -> int_value b raw = Some n -> branch_of (strip raw) = b.
Proof.
  intros Hb. unfold int_value.
  destruct (startswith (key_prefix b) (strip raw)) eqn:E; [|discriminate].
  intros _. apply (branch_of_prefix b); [destruct b; discriminate|exact E].
Qed.

Lemma name_value_other (raw : text) :
  branch_of (strip raw) <> BName -> name_value raw = None.
Proof.
  intros H. destruct (name_value raw) as [v|] eqn:E; [|reflexivity].
  apply name_value_branch in E. contradiction.
Qed.

Lemma int_value_other (b : branch) (raw : text) :
  is_numeric b = true -> branch_of (strip raw) <> b -> int_value b raw = None.
Proof.
  intros Hb H. destruct (int_value b raw) as [n|] eqn:E; [|reflexivity].
  apply (int_value_branch b raw n Hb) in E. contradiction.
Qed.

(** What one line does to the dict, branch by branch. *)
Lemma apply_line_cases (d : data) (raw : text) :
  apply_line d raw =
    match branch_of (strip raw) with
    | BName => match name_value raw with Some v => set_name d v | None => d end
    | BNone => d
    | b => match int_value b raw with Some n => set_field b d n | None => d end
    end.
Proof.
  unfold apply_line.
  destruct (branch_of (strip raw)) eqn:B.
  - rewrite (int_value_other BClas), (int_value_other BLevl),
      (int_value_other BExp), (int_value_other BGold) by (reflexivity || congruence).
    destruct (name_value raw); destruct d; reflexivity.
  - rewrite name_value_other, (int_value_other BLevl),
      (int_value_other BExp), (int_value_other BGold) by (reflexivity || congruence).
    destruct (int_value BClas raw); destruct d; reflexivity.
  - rewrite name_value_other, (int_value_other BClas),
      (int_value_other BExp), (int_value_other BGold) by (reflexivity || congruence).
    destruct (int_value BLevl raw); destruct d; reflexivity.
  - rewrite name_value_other, (int_value_other BClas),
      (int_value_other BLevl), (int_value_other BGold) by (reflexivity || congruence).
    destruct (int_value BExp raw); destruct d; reflexivity.
  - rewrite name_value_other, (int_value_other BClas),
      (int_value_other BLevl), (int_value_other BExp) by (reflexivity || congruence).
    destruct (int_value BGold raw); destruct d; reflexivity.
  - rewrite name_value_other, (int_value_other BClas), (int_value_other BLevl),
      (int_value_other BExp), (int_value_other BGold) by (reflexivity || congruence).
    destruct d; reflexivity.
Qed.

Lemma parse_lines_app (l1 l2 : list text) :
  parse_lines (l1 ++ l2) = Ok (fold_left apply_line l2 (fold_left apply_line l1 data_init)).
Proof. unfold parse_lines. rewrite for_each_parse_line, fold_left_app. reflexivity. Qed.

(** X1: no step of the parser raises.  The branches for [Name:], [Clas:],
    [Levl:] and [Gold:] index the split at 1 without catching [IndexError];
    a line that takes them has a colon, so the index exists, and the only
    other exception, the [ValueError] of [int], is caught.  Hence the loop
    body, the loop, the parse of a text and the parse of a file, readable or
    not, all return. *)
Theorem parser_never_raises :
  (forall d raw, exists d', parse_line d raw = Ok d') /\
  (forall lines, exists d, parse_lines lines = Ok d) /\
  (forall content, exists r, parse_content content = Ok r) /\
  (forall filepath, exists r, parse_player_file filepath = Ok r) /\
  (forall line, branch_of line <> BNone -> branch_of line <> BExp ->
                exists v, value_of line = Ok v).
Proof.
  split; [|split; [|split; [|split]]].
  - intros d raw. eexists. apply parse_line_spec.
  - intros lines. eexists. apply parse_lines_spec.
  - intros content. eexists. apply parse_content_spec.
  - intros filepath. eexists. apply parse_player_file_spec.
  - intros line Hn He. rewrite value_of_after_colon.
    destruct (after_colon_prefix (branch_of line) line Hn He) as [v ->].
    + apply (branch_of_prefix (branch_of line)); [exact Hn|reflexivity].
    + eexists. reflexivity.
Qed.

(** *** White space around a line *)

Lemma lstrip_spaces (ws s : text) :
  Forall (fun c => is_space c = true) ws -> lstrip (ws ++ s) = lstrip s.
Proof.
  induction 1 as [|c ws Hc _ IH]; [reflexivity|].
  simpl. rewrite Hc. exact IH.
Qed.

Lemma lstrip_nil_spaces (s : text) :
  lstrip s = [] -> Forall (fun c => is_space c = true) s.
Proof.
  induction s as [|c s IH]; intros H; [constructor|].
  simpl in H. destruct (is_space c) eqn:Hc; [|discriminate].
  constructor; [exact Hc|apply IH; exact H].
Qed.

Lemma lstrip_all_spaces (s : text) :
  Forall (fun c => is_space c = true) s -> lstrip s = [].
Proof.
  intros H. rewrite <- (app_nil_r s). rewrite (lstrip_spaces s [] H). reflexivity.
Qed.

Lemma lstrip_app (s t : text) :
  lstrip s <> [] -> lstrip (s ++ t) = lstrip s ++ t.
Proof.
  induction s as [|c s IH]; intros H; [contradiction|].
  simpl in *. destruct (is_space c); [apply IH; exact H|reflexivity].
Qed.

Lemma rstrip_spaces (s ws : text) :
  Forall (fun c => is_space c = true) ws -> rstrip (s ++ ws) = rstrip s.
Proof.
  intros H. unfold rstrip. rewrite rev_app_distr, lstrip_spaces; [reflexivity|].
  apply List.Forall_rev. exact H.
Qed.

Lemma strip_spaces_around (ws1 ws2 s : text) :
  Forall (fun c => is_space c = true) ws1 ->
  Forall (fun c => is_space c = true) ws2 ->
  strip (ws1 ++ s ++ ws2) = strip s.
Proof.
  intros H1 H2. unfold strip. rewrite (lstrip_spaces ws1 _ H1).
  destruct (lstrip s) as [|c r] eqn:E.
  - rewrite lstrip_all_spaces; [reflexivity|].
    apply List.Forall_app. split; [apply lstrip_nil_spaces; exact E|exact H2].
  - rewrite lstrip_app by (rewrite E; discriminate).
    rewrite E. apply rstrip_spaces. exact H2.
Qed.

(** X2: white space before and after a line does not matter: the line
    strips to the same text, the loop body does the same to every dict, and
    a file parses the same with the line indented or padded. *)
Theorem surrounding_whitespace_insignificant (ws1 ws2 raw : text) (l1 l2 : list text) :
  Forall (fun c => is_space c = true) ws1 ->
  Forall (fun c => is_space c = true) ws2 ->
  strip (ws1 ++ raw ++ ws2) = strip raw /\
  (forall d, parse_line d (ws1 ++ raw ++ ws2) = parse_line d raw) /\
  parse_lines (l1 ++ (ws1 ++ raw ++ ws2) :: l2) = parse_lines (l1 ++ raw :: l2).
Proof.
  intros H1 H2. pose proof (strip_spaces_around ws1 ws2 raw H1 H2) as Hs.
  assert (Hline : forall d, parse_line d (ws1 ++ raw ++ ws2) = parse_line d raw)
    by (intros d; unfold parse_line; rewrite Hs; reflexivity).
  split; [exact Hs|]. split; [exact Hline|].
  rewrite !parse_lines_app. cbn [fold_left]. f_equal. f_equal.
  unfold apply_line, name_value, int_value. rewrite Hs. reflexivity.
Qed.

(** X2 with a tab and two spaces in front of [Gold: 7] and a space and a
    carriage return behind it. *)
Lemma surrounding_whitespace_insignificant_witness :
  strip ([0x09; 0x20; 0x20]%N ++ py "Gold: 7" ++ [0x20; 0x0D]%N) = strip (py "Gold: 7") /\
  parse_lines ([py "Name: A"] ++ ([0x09; 0x20; 0x20]%N ++ py "Gold: 7" ++ [0x20; 0x0D]%N) :: [])
  = parse_lines ([py "Name: A"] ++ py "Gold: 7" :: []).
Proof.
  destruct (surrounding_whitespace_insignificant
              [0x09; 0x20; 0x20]%N [0x20; 0x0D]%N (py "Gold: 7") [py "Name: A"] [])
    as (Hs & _ & Hp).
  - repeat constructor.
  - repeat constructor.
  - split; [exact Hs|exact Hp].
Defined.

(** X3: a line that starts with none of the five prefixes is ignored: the
    loop body returns the dict it was given, and a file parses as if the
    line were not there.  Blank lines are of this kind. *)
Theorem unrecognised_lines_ignored (raw : text) (l1 l2 : list text) :
  branch_of (strip raw) = BNone ->
  (forall d, parse_line d raw = Ok d) /\
  parse_lines (l1 ++ raw :: l2) = parse_lines (l1 ++ l2) /\
  (forall blank, Forall (fun c => is_space c = true) blank ->
                 branch_of (strip blank) = BNone).
Proof.
  intros H.
  assert (Hd : forall d, apply_line d raw = d)
    by (intros d; rewrite apply_line_cases, H; reflexivity).
  split; [|split].
  - intros d. rewrite parse_line_spec, Hd. reflexivity.
  - rewrite !parse_lines_app. cbn [fold_left]. rewrite Hd. reflexivity.
  - intros blank Hb. unfold strip. rewrite (lstrip_all_spaces blank Hb). reflexivity.
Qed.

(** X3 on the line [Room: 3001] after a name, before a currency. *)
Lemma unrecognised_lines_ignored_witness :
  parse_lines ([py "Name: A"] ++ py "Room: 3001" :: [py "Gold: 7"])
  = parse_lines ([py "Name: A"] ++ [py "Gold: 7"]).
Proof.
  destruct (unrecognised_lines_ignored (py "Room: 3001") [py "Name: A"] [py "Gold: 7"])
    as (_ & H & _).
  - vm_compute. reflexivity.
  - exact H.
Defined.

(** X4: a line assigns at most one key of the dict: after the loop body the
    dict is unchanged or differs from the old one in exactly the key of the
    line's branch. *)
Theorem line_sets_at_most_one_field (d : data) (raw : text) :
  exists d', parse_line d raw = Ok d' /\
    (d' = d \/
     (branch_of (strip raw) = BName /\ exists v, d' = set_name d v) \/
     (is_numeric (branch_of (strip raw)) = true /\
      exists n, d' = set_field (branch_of (strip raw)) d n)).
Proof.
  exists (apply_line d raw). split; [apply parse_line_spec|].
  rewrite apply_line_cases.
  destruct (branch_of (strip raw)) eqn:B; cbv zeta.
  - destruct (name_value raw) as [v|]; [|left; reflexivity].
    right; left. split; [reflexivity|]. exists v. reflexivity.
  - destruct (int_value BClas raw) as [n|]; [|left; reflexivity].
    right; right. split; [reflexivity|]. exists n. reflexivity.
  - destruct (int_value BLevl raw) as [n|]; [|left; reflexivity].
    right; right. split; [reflexivity|]. exists n. reflexivity.
  - destruct (int_value BExp raw) as [n|]; [|left; reflexivity].
    right; right. split; [reflexivity|]. exists n. reflexivity.
  - destruct (int_value BGold raw) as [n|]; [|left; reflexivity].
    right; right. split; [reflexivity|]. exists n. reflexivity.
  - left. reflexivity.
Qed.

Lemma apply_line_commute (d : data) (a b : text) :
  branch_of (strip a) <> branch_of (strip b) ->
  apply_line (apply_line d a) b = apply_line (apply_line d b) a.
Proof.
  intros H. rewrite !apply_line_cases.
  destruct (branch_of (strip a)) eqn:Ba; destruct (branch_of (strip b)) eqn:Bb;
    try contradiction; try reflexivity; cbv zeta;
    repeat match goal with
           | |- context [name_value ?r] => destruct (name_value r)
           | |- context [int_value ?k ?r] => destruct (int_value k r)
           end; destruct d; reflexivity.
Qed.

(** X5: two neighbouring lines of different keys can be exchanged: the
    order of the keys in a file does not matter, only the order of the
    lines of one key does. *)
Theorem lines_of_different_keys_commute (l1 l2 : list text) (a b : text) :
  branch_of (strip a) <> branch_of (strip b) ->
  parse_lines (l1 ++ a :: b :: l2) = parse_lines (l1 ++ b :: a :: l2).
Proof.
  intros H. rewrite !parse_lines_app. cbn [fold_left].
  rewrite (apply_line_commute _ a b H). reflexivity.
Qed.

(** X5 on a currency line and a level line. *)
Lemma lines_of_different_keys_commute_witness :
  parse_lines ([py "Name: A"] ++ py "Gold: 7" :: py "Levl: 3" :: [])
  = parse_lines ([py "Name: A"] ++ py "Levl: 3" :: py "Gold: 7" :: []).
Proof.
  apply (lines_of_different_keys_commute [py "Name: A"] [] (py "Gold: 7") (py "Levl: 3")).
  vm_compute. discriminate.
Defined.

(** ** The collector *)

Lemma valid_record_inv (n : node) (p : Player) :
  valid_record n = Some p ->
  exists c, n = File (Some c) /\ parse_content c = Ok (Some p) /\ name p <> [].
Proof.
  destruct n as [[c|]|es]; simpl; try discriminate.
  rewrite parse_content_spec. unfold parse_spec.
  destruct (last_value name_value [] (splitlines c)) eqn:E; [discriminate|].
  intros [= <-]. exists c. split; [reflexivity|]. split; [|discriminate].
  rewrite parse_content_spec. unfold parse_spec. rewrite E. reflexivity.
Qed.

Lemma plr_entries_inv (es : list (text * node)) (p : Player) :
  In p (omap (fun e => if endswith (py ".plr") (fst e) then valid_record (snd e) else None)
             es) ->
  exists fname c,
    In (fname, File (Some c)) es /\
    endswith (py ".plr") fname = true /\
    parse_content c = Ok (Some p) /\ name p <> [].
Proof.
  induction es as [|[fname n] es IH]; intros H.
  - destruct H.
  - change (omap ?f ((fname, n) :: es))
      with (match f (fname, n) with Some y => y :: omap f es | None => omap f es end) in H.
    cbv beta in H. cbn [fst snd] in H.
    assert (Hrest : In p (omap (fun e => if endswith (py ".plr") (fst e)
                                         then valid_record (snd e) else None) es) ->
                    exists fname0 c,
                      In (fname0, File (Some c)) ((fname, n) :: es) /\
                      endswith (py ".plr") fname0 = true /\
                      parse_content c = Ok (Some p) /\ name p <> []).
    { intros H'. destruct (IH H') as (f' & c & Hin & Hmore).
      exists f', c. split; [right; exact Hin|exact Hmore]. }
    destruct (endswith (py ".plr") fname) eqn:Hext; [|exact (Hrest H)].
    destruct (valid_record n) as [q|] eqn:Hv; [|exact (Hrest H)].
    destruct H as [<-|H]; [|exact (Hrest H)].
    destruct (valid_record_inv n q Hv) as (c & -> & Hc & Hn).
    exists fname, c. split; [left; reflexivity|]. repeat split; assumption.
Qed.

Lemma records_of_subdir_inv (child : text * node) (p : Player) :
  In p (records_of_subdir child) ->
  exists es fname c,
    snd child = Dir es /\ In (fname, File (Some c)) es /\
    endswith (py ".plr") fname = true /\
    parse_content c = Ok (Some p) /\ name p <> [].
Proof.
  unfold records_of_subdir. destruct (snd child) as [c|es]; [intros []|].
  intros H. destruct (plr_entries_inv es p H) as (fname & c & Hmore).
  exists es, fname, c. split; [reflexivity|exact Hmore].
Qed.

(** X6: every record the collector returns has a non-empty name and is the
    parse of a readable file named [*.plr] that lies in a subdirectory of
    the root. *)
Theorem collected_records_are_valid (children : list (text * node)) (players : list Player) :
  find_all_players (Dir children) = Ok players ->
  Forall (fun p =>
            name p <> [] /\
            exists sub es fname c,
              In (sub, Dir es) children /\ In (fname, File (Some c)) es /\
              endswith (py ".plr") fname = true /\
              parse_content c = Ok (Some p)) players.
Proof.
  rewrite find_all_players_spec. intros [= <-].
  apply List.Forall_forall. intros p Hp. unfold collect_spec in Hp.
  apply in_concat in Hp as (ps & Hps & Hin).
  apply in_map_iff in Hps as ([sub n] & <- & Hchild).
  destruct (records_of_subdir_inv _ _ Hin) as (es & fname & c & Hn & Hf & Hext & Hc & Hname).
  simpl in Hn. subst n.
  split; [exact Hname|]. exists sub, es, fname, c. repeat split; assumption.
Qed.

(** X6 on a root with one subdirectory and one record file. *)
Lemma collected_records_are_valid_witness :
  Forall (fun p =>
            name p <> [] /\
            exists sub es fname c,
              In (sub, Dir es) [(py "A", Dir [(py "amy.plr", File (Some (py "Name: Amy")))])] /\
              In (fname, File (Some c)) es /\
              endswith (py ".plr") fname = true /\
              parse_content c = Ok (Some p))
         [mkPlayer (py "Amy") 0 0 0 0].
Proof.
  apply (collected_records_are_valid
           [(py "A", Dir [(py "amy.plr", File (Some (py "Name: Amy")))])]).
  vm_compute. reflexivity.
Defined.



(** ** The class catalog *)

(** X8: the two catalogs have the same keys, 0 to 3, so a record shows the
    name [Unknown] exactly when it shows the fallback icon, and exactly when
    its class code is outside 0..3. *)
Theorem catalogs_have_the_same_keys :
  dom CLASS_NAMES = dom CLASS_ICONS /\
  (forall p, class_name p = unknown_name <-> class_id p < 0 \/ 3 < class_id p) /\
  (forall p, class_icon p = unknown_icon <-> class_id p < 0 \/ 3 < class_id p) /\
  (forall p, class_name p = unknown_name <-> class_icon p = unknown_icon).
Proof.
  assert (Hn : forall p, class_name p = unknown_name <-> class_id p < 0 \/ 3 < class_id p).
  { intros [n c l x g]. unfold class_name. simpl. split.
    - intros H. destruct (Z_lt_le_dec c 0) as [|H0]; [left; assumption|].
      destruct (Z_lt_le_dec 3 c) as [|H3]; [right; assumption|].
      exfalso.
      assert (Hc : c = 0 \/ c = 1 \/ c = 2 \/ c = 3) by lia.
      destruct Hc as [-> | [-> | [-> | ->]]]; vm_compute in H; discriminate.
    - intros H. apply class_lookup_unknown. unfold CLASS_NAMES.
      rewrite !lookup_insert_ne by lia. apply lookup_empty. }
  assert (Hi : forall p, class_icon p = unknown_icon <-> class_id p < 0 \/ 3 < class_id p).
  { intros [n c l x g]. unfold class_icon. simpl. split.
    - intros H. destruct (Z_lt_le_dec c 0) as [|H0]; [left; assumption|].
      destruct (Z_lt_le_dec 3 c) as [|H3]; [right; assumption|].
      exfalso.
      assert (Hc : c = 0 \/ c = 1 \/ c = 2 \/ c = 3) by lia.
      destruct Hc as [-> | [-> | [-> | ->]]]; vm_compute in H; discriminate.
    - intros H. apply class_lookup_unknown. unfold CLASS_ICONS.
      rewrite !lookup_insert_ne by lia. apply lookup_empty. }
  split; [|split; [exact Hn|split; [exact Hi|]]].
  - unfold CLASS_NAMES, CLASS_ICONS. rewrite !dom_insert_L. reflexivity.
  - intros p. rewrite Hn, Hi. reflexivity.
Qed.

(** ** The entry point *)



(** ** Ranking: bounds and composition *)

Lemma py_sorted_length {A} (key : A -> Z) (l : list A) :
  length (py_sorted key true l) = length l.
Proof. apply Permutation_length. apply py_sorted_reverse_spec. Qed.

Lemma firstn_min_length {A} (n : nat) (l : list A) :
  firstn (Nat.min n (length l)) l = firstn n l.
Proof.
  destruct (Nat.min_spec n (length l)) as [[_ ->]|[H ->]]; [reflexivity|].
  rewrite firstn_all, firstn_all2 by lia. reflexivity.
Qed.

Lemma rank_firstn (players : list Player) (k : sort_key) (limit : Z) :
  0 <= limit ->
  rank players k limit
  = firstn (Z.to_nat limit) (py_sorted (fun p => getattr p k) true players).
Proof.
  intros H. unfold rank, slice_to. destruct (Z.ltb_spec limit 0); [lia|reflexivity].
Qed.

(** X10: the number of ranked records for every limit.  A limit that is
    not negative keeps that many records, or all when there are fewer; a
    negative limit drops that many from the end of the ranking, down to
    none; the limit 0 gives none.  In every case the result is a prefix of
    the full ranking. *)
Theorem rank_length (players : list Player) (k : sort_key) (limit : Z) :
  Z.of_nat (length (rank players k limit))
  = (if limit <? 0 then Z.max 0 (Z.of_nat (length players) + limit)
     else Z.min limit (Z.of_nat (length players))) /\
  rank players k limit
  = firstn (length (rank players k limit)) (py_sorted (fun p => getattr p k) true players) /\
  rank players k 0 = [].
Proof.
  unfold rank, slice_to.
  set (s := py_sorted (fun p => getattr p k) true players).
  assert (Hs : length s = length players) by apply py_sorted_length.
  split; [|split; [|reflexivity]].
  - destruct (Z.ltb_spec limit 0); rewrite length_firstn, Hs; lia.
  - destruct (Z.ltb_spec limit 0); rewrite length_firstn, Hs.
    + f_equal. lia.
    + rewrite <- Hs. symmetry. apply firstn_min_length.
Qed.

(** X11: a smaller limit gives a prefix of the ranking for a larger one.
    The ten records of the class summary are therefore the first ten rows
    of the table printed just before it with limit 100. *)
Theorem smaller_limit_is_prefix (players : list Player) (k : sort_key) (m n : Z) :
  0 <= m -> m <= n ->
  rank players k m = firstn (Z.to_nat m) (rank players k n) /\
  rank players k 10 = firstn 10 (rank players k 100).
Proof.
  intros Hm Hn.
  assert (G : forall a b, 0 <= a -> a <= b ->
                          rank players k a = firstn (Z.to_nat a) (rank players k b)).
  { intros a b Ha Hb. rewrite !rank_firstn by lia. rewrite firstn_firstn.
    f_equal. lia. }
  split; [apply G; assumption|].
  apply (G 10 100); lia.
Qed.

(** X11 on the five sample records with the limits 2 and 3. *)
Lemma smaller_limit_is_prefix_witness :
  rank five_players key_gold 2 = firstn 2 (rank five_players key_gold 3).
Proof.
  destruct (smaller_limit_is_prefix five_players key_gold 2 3) as [H _]; [lia|lia|].
  exact H.
Defined.

Lemma sorted_impl {A} (R S : A -> A -> Prop) (l : list A) :
  (forall a b, R a b -> S a b) -> StronglySorted R l -> StronglySorted S l.
Proof.
  intros HRS. induction 1 as [|x l Hl IH Hx]; constructor.
  - exact IH.
  - eapply List.Forall_impl; [|exact Hx]. intros a. apply HRS.
Qed.

Lemma sorted_rev_flip {A} (R : A -> A -> Prop) (l : list A) :
  StronglySorted R l -> StronglySorted (fun a b => R b a) (rev l).
Proof.
  induction 1 as [|x l Hl IH Hx]; simpl.
  - constructor.
  - apply sorted_snoc; [exact IH|]. apply List.Forall_rev. exact Hx.
Qed.

Lemma insert_by_least {A} (key : A -> Z) (x : A) (l : list A) :
  List.Forall (fun y => key x <= key y) l -> insert_by key x l = x :: l.
Proof.
  intros H. destruct l as [|y l]; [reflexivity|].
  simpl. inversion H as [|? ? Hy _]; subst.
  destruct (Z.leb_spec (key x) (key y)); [reflexivity|lia].
Qed.

Lemma stable_sort_id {A} (key : A -> Z) (l : list A) :
  StronglySorted (fun a b => key a <= key b) l -> stable_sort key l = l.
Proof.
  induction 1 as [|x l Hl IH Hx]; [reflexivity|].
  simpl. rewrite IH. apply insert_by_least. exact Hx.
Qed.

(** Sorting a list that is already in descending order changes nothing. *)
Lemma py_sorted_id {A} (key : A -> Z) (l : list A) :
  StronglySorted (fun a b => key a >= key b) l -> py_sorted key true l = l.
Proof.
  intros H. unfold py_sorted. rewrite stable_sort_id; [apply rev_involutive|].
  apply sorted_rev_flip in H. eapply sorted_impl; [|exact H].
  intros a b Hab. simpl in Hab. lia.
Qed.

(** X12: ranking is idempotent for a limit that is not negative: ranking
    the ranked records again by the same field and limit returns them
    unchanged, ties included. *)
Theorem rank_idempotent (players : list Player) (k : sort_key) (limit : Z) :
  0 <= limit ->
  rank (rank players k limit) k limit = rank players k limit.
Proof.
  intros H. rewrite (rank_firstn (rank players k limit)) by exact H.
  rewrite py_sorted_id.
  - rewrite (rank_firstn players) by exact H. rewrite firstn_firstn.
    f_equal. lia.
  - rewrite rank_firstn by exact H. apply sorted_firstn.
    apply (py_sorted_reverse_spec (fun p => getattr p k) players).
Qed.

(** X12 on the five sample records with limit 3. *)
Lemma rank_idempotent_witness :
  rank (rank five_players key_gold 3) key_gold 3 = rank five_players key_gold 3.
Proof. apply (rank_idempotent five_players key_gold 3). lia. Defined.

Lemma key_injective {A} (key : A -> Z) (l : list A) (a b : A) :
  List.NoDup (List.map key l) -> In a l -> In b l -> key a = key b -> a = b.
Proof.
  induction l as [|x l IH]; intros Hnd Ha Hb Hk; [destruct Ha|].
  simpl in Hnd. inversion Hnd as [|? ? Hx Hl]; subst.
  destruct Ha as [<-|Ha], Hb as [<-|Hb].
  - reflexivity.
  - exfalso. apply Hx. rewrite Hk. apply in_map. exact Hb.
  - exfalso. apply Hx. rewrite <- Hk. apply in_map. exact Ha.
  - apply IH; assumption.
Qed.

(** Two sorted lists with the same elements are equal when the order
    cannot hold both ways between two different elements. *)
Lemma sorted_perm_unique {A} (R : A -> A -> Prop) (l1 l2 : list A) :
  (forall a b, In a l1 -> In b l1 -> R a b -> R b a -> a = b) ->
  StronglySorted R l1 -> StronglySorted R l2 -> Permutation l1 l2 -> l1 = l2.
Proof.
  intros Hanti H1. revert l2.
  induction H1 as [|x t1 Ht1 IH Hx]; intros l2 H2 Hp.
  - apply Permutation_nil in Hp. subst. reflexivity.
  - destruct H2 as [|y t2 Ht2 Hy].
    + apply Permutation_sym, Permutation_nil in Hp. discriminate.
    + assert (Hxy : x = y).
      { assert (Hx2 : In x (y :: t2))
          by (eapply Permutation_in; [exact Hp|left; reflexivity]).
        assert (Hy1 : In y (x :: t1))
          by (eapply Permutation_in; [apply Permutation_sym; exact Hp|left; reflexivity]).
        destruct Hx2 as [E|Hx2]; [symmetry; exact E|].
        destruct Hy1 as [E|Hy1]; [exact E|].
        apply Hanti.
        - left. reflexivity.
        - right. exact Hy1.
        - apply (proj1 (List.Forall_forall _ _) Hx). exact Hy1.
        - apply (proj1 (List.Forall_forall _ _) Hy). exact Hx2. }
      subst y. f_equal. apply IH.
      * intros a b Ha Hb. apply Hanti; right; assumption.
      * exact Ht2.
      * eapply Permutation_cons_inv. exact Hp.
Qed.

(** X13: when no two records have the same value of the field, the ranking
    does not depend on the order in which the records were collected; with
    equal values it does, as two records of equal currency show. *)
Theorem rank_independent_of_input_order (l1 l2 : list Player) (k : sort_key) (limit : Z) :
  Permutation l1 l2 ->
  List.NoDup (List.map (fun p => getattr p k) l1) ->
  rank l1 k limit = rank l2 k limit /\
  rank [mkPlayer (py "A") 0 0 0 5; mkPlayer (py "B") 0 0 0 5] key_gold 1
  <> rank [mkPlayer (py "B") 0 0 0 5; mkPlayer (py "A") 0 0 0 5] key_gold 1.
Proof.
  intros Hp Hnd. split; [|vm_compute; discriminate].
  unfold rank. f_equal.
  set (key := fun p => getattr p k) in *.
  destruct (py_sorted_reverse_spec key l1) as (P1 & S1 & _).
  destruct (py_sorted_reverse_spec key l2) as (P2 & S2 & _).
  apply (sorted_perm_unique (fun a b => key a >= key b)); try assumption.
  - intros a b Ha Hb Hab Hba.
    apply (key_injective key l1); try assumption.
    + eapply Permutation_in; [exact P1|exact Ha].
    + eapply Permutation_in; [exact P1|exact Hb].
    + lia.
  - eapply Permutation_trans; [exact P1|].
    eapply Permutation_trans; [exact Hp|]. apply Permutation_sym. exact P2.
Qed.

(** X13 on the five sample records ranked by experience, listed in two
    orders. *)
Lemma rank_independent_of_input_order_witness :
  rank five_players key_xp 3 = rank (rev five_players) key_xp 3.
Proof.
  destruct (rank_independent_of_input_order five_players (rev five_players) key_xp 3)
    as [H _].
  - apply Permutation_rev.
  - vm_compute. repeat constructor; simpl; intuition discriminate.
  - exact H.
Defined.

(** ** The reports *)

Lemma nth_error_enumerate {A B} (f : Z * A -> B) (l : list A) (start : Z) (i : nat) (x : A) :
  nth_error l i = Some x ->
  nth_error (List.map f (enumerate start l)) i = Some (f (start + Z.of_nat i, x)).
Proof.
  revert start i. induction l as [|y l IH]; intros start [|i] H; try discriminate.
  - simpl in *. injection H as ->. rewrite Z.add_0_r. reflexivity.
  - simpl in H. cbn [enumerate List.map nth_error]. rewrite (IH _ _ H).
    f_equal. f_equal. f_equal. lia.
Qed.

Lemma length_enumerate {A} (l : list A) (start : Z) :
  length (enumerate start l) = length l.
Proof. revert start; induction l as [|y l IH]; intros start; simpl; [|rewrite IH]; reflexivity. Qed.

(** X14: the shape of a table: the five texts of the header, which do not
    depend on the records, then one row per ranked record, in rank order
    and numbered from 1, then one empty text. *)
Theorem print_table_shape (title : text) (players : list Player) (k : sort_key) (limit : Z) :
  exists rows,
    print_table title players k limit = table_header title k ++ rows ++ [ [] ] /\
    length rows = length (rank players k limit) /\
    (forall i p, nth_error (rank players k limit) i = Some p ->
                 nth_error rows i = Some (table_row k (Z.of_nat i + 1) p)) /\
    length (print_table title players k limit) = (6 + length (rank players k limit))%nat.
Proof.
  exists (List.map (fun ip => table_row k (fst ip) (snd ip))
                   (enumerate 1 (rank players k limit))).
  split; [reflexivity|]. split; [|split].
  - rewrite length_map. apply length_enumerate.
  - intros i p H.
    pose proof (nth_error_enumerate (fun ip => table_row k (fst ip) (snd ip)) _ 1 i p H)
      as E.
    cbn [fst snd] in E. rewrite Z.add_comm in E. exact E.
  - unfold print_table. rewrite !length_app, length_map, length_enumerate.
    simpl. lia.
Qed.

(** *** The class summary *)















(** ** Formatting *)

Lemma text_of_uint_digits (u : Decimal.uint) :
  List.Forall (fun c => is_ascii_digit c = true) (text_of_uint u).
Proof. induction u; simpl; constructor; try reflexivity; assumption. Qed.

Lemma digits_of_nonempty (n : N) : digits_of n <> [].
Proof.
  unfold digits_of. destruct n as [|p]; [discriminate|].
  simpl. pose proof (DecimalPos.Unsigned.to_uint_nonnil p) as H.
  destruct (Pos.to_uint p); [contradiction|discriminate..].
Qed.

Lemma digit_not_comma (c : char) : is_ascii_digit c = true -> negb (c =? comma)%N = true.
Proof.
  unfold is_ascii_digit, comma. intros H. apply andb_prop in H as [H1 H2].
  apply N.leb_le in H1, H2. destruct (N.eqb_spec c 0x2C); [lia|reflexivity].
Qed.

Lemma filter_all {A} (f : A -> bool) (l : list A) :
  List.Forall (fun x => f x = true) l -> List.filter f l = l.
Proof.
  induction 1 as [|x l Hx _ IH]; [reflexivity|]. simpl. rewrite Hx, IH. reflexivity.
Qed.

Lemma group_thousands_step (a b c d : char) (r : text) :
  group_thousands_rev (a :: b :: c :: d :: r)
  = a :: b :: c :: comma :: group_thousands_rev (d :: r).
Proof. reflexivity. Qed.

(** Grouping inserts commas and nothing else. *)
Lemma group_thousands_filter (ds : text) :
  List.Forall (fun c => negb (c =? comma)%N = true) ds ->
  List.filter (fun c => negb (c =? comma)%N) (group_thousands_rev ds) = ds.
Proof.
  assert (G : forall n ds, (length ds <= n)%nat ->
                List.Forall (fun c => negb (c =? comma)%N = true) ds ->
                List.filter (fun c => negb (c =? comma)%N) (group_thousands_rev ds) = ds).
  { induction n as [|n IH]; intros l Hlen Hall.
    - destruct l; [reflexivity|simpl in Hlen; lia].
    - destruct l as [|a [|b [|c [|d r]]]]; try (apply filter_all; exact Hall).
      rewrite group_thousands_step.
      inversion Hall as [|? ? Ha Hall1]; subst.
      inversion Hall1 as [|? ? Hb Hall2]; subst.
      inversion Hall2 as [|? ? Hc Hall3]; subst.
      cbn [List.filter]. rewrite Ha, Hb, Hc.
      change (negb (comma =? comma)%N) with false. cbv iota.
      rewrite IH; [reflexivity| |exact Hall3].
      cbn [length] in Hlen |- *. apply le_S_n in Hlen.
      refine (Nat.le_trans _ _ _ _ Hlen). do 2 apply le_S. apply le_n. }
  intros H. apply (G (length ds)); [apply le_n|exact H].
Qed.

Lemma filter_with_sign (z : Z) (ds : text) :
  List.filter (fun c => negb (c =? comma)%N) (with_sign z ds)
  = with_sign z (List.filter (fun c => negb (c =? comma)%N) ds).
Proof. unfold with_sign. destruct (z <? 0); reflexivity. Qed.

(** X16: the formats of a row lose nothing.  Left justification pads a
    text with blanks up to the width and never cuts it, so a text wider
    than its column is printed in full; and the grouped form of a number is
    its plain decimal form with commas put in: taking the commas out gives
    [str] of the number back. *)
Theorem row_formats_lose_nothing :
  (forall w s, length (ljust w s) = Nat.max w (length s) /\
               firstn (length s) (ljust w s) = s /\
               ((w <= length s)%nat -> ljust w s = s)) /\
  (forall z, List.filter (fun c => negb (c =? comma)%N) (str_int_grouped z) = str_int z) /\
  (forall z, (length (str_int z) <= length (str_int_grouped z))%nat).
Proof.
  assert (F : forall z, List.filter (fun c => negb (c =? comma)%N) (str_int_grouped z)
                        = str_int z).
  { intros z. unfold str_int_grouped, str_int.
    rewrite filter_with_sign, filter_rev_eq, group_thousands_filter, rev_involutive;
      [reflexivity|].
    apply List.Forall_rev. eapply List.Forall_impl; [|apply text_of_uint_digits].
    intros c. apply digit_not_comma. }
  split; [|split; [exact F|]].
  - intros w s. unfold ljust. split; [|split].
    + rewrite length_app, repeat_length. lia.
    + rewrite firstn_app, Nat.sub_diag, firstn_all. simpl. apply app_nil_r.
    + intros H. replace (w - length s)%nat with 0%nat by lia. apply app_nil_r.
  - intros z. rewrite <- (F z) at 1. apply List.filter_length_le.
Qed.

(** ** Reading decimal values *)

Lemma digit_bounds (c : char) :
  is_ascii_digit c = true -> (0x30 <= c <= 0x39)%N.
Proof.
  unfold is_ascii_digit. intros H. apply andb_prop in H as [H1 H2].
  apply N.leb_le in H1, H2. split; assumption.
Qed.

Ltac decide_char_tests c :=
  repeat match goal with
         | |- context [N.eqb c ?k] => destruct (N.eqb_spec c k); [lia|]
         | |- context [N.eqb ?k c] => destruct (N.eqb_spec k c); [lia|]
         end.

Lemma digit_not_space (c : char) : is_ascii_digit c = true -> is_space c = false.
Proof.
  intros H. apply digit_bounds in H. unfold is_space, N_in. cbn [existsb].
  decide_char_tests c. reflexivity.
Qed.

Lemma digit_not_int_space (c : char) : is_ascii_digit c = true -> int_space c = false.
Proof.
  intros H. apply digit_bounds in H. unfold int_space, N_in.
  destruct (N.ltb_spec c 127); [|lia]. cbn [existsb].
  decide_char_tests c. reflexivity.
Qed.

Lemma usize_length (u : Decimal.uint) :
  DecimalPos.Unsigned.usize u = N.of_nat (length (text_of_uint u)).
Proof.
  induction u; cbn [DecimalPos.Unsigned.usize text_of_uint length];
    [reflexivity|rewrite IHu; lia..].
Qed.

Lemma scan_result_eq (v v' : Z) (n n' : N) :
  v = v' -> n = n' -> Some (v, n, @nil char) = Some (v', n', @nil char).
Proof. intros -> ->. reflexivity. Qed.

Ltac scan_digit_step IH :=
  cbn [text_of_uint scan_digits];
  match goal with
  | |- context [N.eqb (digit_char ?k) underscore] =>
      change (N.eqb (digit_char k) underscore) with false;
      change (to_decimal (digit_char k)) with (Some (Z.of_N k))
  end;
  cbv iota; rewrite IH;
  match goal with
  | |- context [Decimal.rev (?D ?u)] =>
      change (Decimal.rev (D u)) with (Decimal.revapp u (D Decimal.Nil));
      rewrite (DecimalPos.Unsigned.of_lu_revapp u (D Decimal.Nil))
  end;
  cbn [DecimalPos.Unsigned.usize DecimalPos.Unsigned.of_lu];
  apply scan_result_eq;
  [ rewrite !N2Z.inj_add, !N2Z.inj_mul, !N2Z.inj_pow, N2Z.inj_succ,
      Z.pow_succ_r by lia;
    simpl Z.of_N; ring
  | lia ].

(** The digits of a decimal numeral scan to its value. *)
Lemma scan_digits_uint (u : Decimal.uint) (acc : Z) (cnt : N) :
  scan_digits false acc cnt (text_of_uint u)
  = Some (acc * 10 ^ Z.of_N (DecimalPos.Unsigned.usize u)
          + Z.of_N (DecimalPos.Unsigned.of_lu (Decimal.rev u)),
          (cnt + DecimalPos.Unsigned.usize u)%N, []).
Proof.
  revert acc cnt. induction u as [|u IH|u IH|u IH|u IH|u IH|u IH|u IH|u IH|u IH|u IH];
    intros acc cnt.
  - apply scan_result_eq; [simpl; lia|simpl; lia].
  - scan_digit_step IH.
  - scan_digit_step IH.
  - scan_digit_step IH.
  - scan_digit_step IH.
  - scan_digit_step IH.
  - scan_digit_step IH.
  - scan_digit_step IH.
  - scan_digit_step IH.
  - scan_digit_step IH.
  - scan_digit_step IH.
Qed.

Lemma digits_of_head (n : N) :
  exists c r, digits_of n = c :: r /\ is_ascii_digit c = true.
Proof.
  pose proof (digits_of_nonempty n) as Hne.
  pose proof (text_of_uint_digits (N.to_uint n)) as Hall. fold (digits_of n) in Hall.
  destruct (digits_of n) as [|c r]; [contradiction|].
  exists c, r. split; [reflexivity|]. inversion Hall; assumption.
Qed.

Lemma digits_of_last (n : N) :
  exists r c, digits_of n = r ++ [c] /\ is_ascii_digit c = true.
Proof.
  pose proof (digits_of_nonempty n) as Hne.
  pose proof (text_of_uint_digits (N.to_uint n)) as Hall. fold (digits_of n) in Hall.
  destruct (exists_last Hne) as (r & c & E). exists r, c. split; [exact E|].
  rewrite E in Hall. apply List.Forall_app in Hall as [_ Hc]. inversion Hc; assumption.
Qed.

Lemma digits_of_value (n : N) :
  scan_digits false 0 0%N (digits_of n)
  = Some (Z.of_N n, N.of_nat (length (digits_of n)), []).
Proof.
  unfold digits_of. rewrite scan_digits_uint. apply scan_result_eq.
  - rewrite <- DecimalPos.Unsigned.of_uint_alt.
    change (Pos.of_uint (N.to_uint n)) with (N.of_uint (N.to_uint n)).
    rewrite DecimalN.Unsigned.of_to. lia.
  - rewrite usize_length. lia.
Qed.

(** [int] on decimal digits behind a sign that has been recognised. *)
Lemma py_int_signed (neg : bool) (sgn : text) (n : N) :
  skip_int_space (sgn ++ digits_of n) = sgn ++ digits_of n ->
  split_sign (sgn ++ digits_of n) = (neg, digits_of n) ->
  py_int (sgn ++ digits_of n)
  = if (int_max_str_digits <? N.of_nat (length (digits_of n)))%N
    then Raise ValueError
    else Ok (if neg then - Z.of_N n else Z.of_N n).
Proof.
  intros S1 S2. unfold py_int. rewrite S1, S2.
  destruct (digits_of_head n) as (c & r & E & Hc).
  pose proof (digit_bounds c Hc) as Hb.
  assert (S3 : startswith [underscore] (digits_of n) = false).
  { rewrite E. cbn [startswith]. unfold underscore. decide_char_tests c. reflexivity. }
  rewrite S3, digits_of_value.
  assert (L : N.of_nat (length (digits_of n)) <> 0%N) by (rewrite E; simpl; lia).
  destruct (N.eqb_spec (N.of_nat (length (digits_of n))) 0); [contradiction|].
  destruct (int_max_str_digits <? N.of_nat (length (digits_of n)))%N; reflexivity.
Qed.

(** [int(str(z))]: the number itself, unless it has more digits than [int]
    accepts. *)
Lemma py_int_str_int (z : Z) :
  py_int (str_int z)
  = if (int_max_str_digits <? N.of_nat (length (digits_of (Z.abs_N z))))%N
    then Raise ValueError else Ok z.
Proof.
  unfold str_int, with_sign. destruct (Z.ltb_spec z 0) as [Hneg|Hpos].
  - refine (eq_trans (py_int_signed true [0x2D%N] (Z.abs_N z) eq_refl eq_refl) _).
    destruct (int_max_str_digits <? _)%N; [reflexivity|].
    f_equal. rewrite N2Z.inj_abs_N. lia.
  - destruct (digits_of_head (Z.abs_N z)) as (c & r & E & Hc).
    pose proof (digit_bounds c Hc) as Hb.
    refine (eq_trans (py_int_signed false [] (Z.abs_N z) _ _) _).
    3: destruct (int_max_str_digits <? _)%N; [reflexivity|];
       f_equal; rewrite N2Z.inj_abs_N; lia.
    + cbn [app]. rewrite E. cbn [skip_int_space].
      rewrite (digit_not_int_space c Hc). reflexivity.
    + cbn [app]. rewrite E. unfold split_sign. decide_char_tests c. reflexivity.
Qed.

Lemma startswith_prefix (p r : text) : startswith p (p ++ r) = true.
Proof.
  induction p as [|a p IH]; [reflexivity|].
  simpl. rewrite N.eqb_refl. exact IH.
Qed.

(** A text that begins and ends with a character that is not white space
    is its own [strip]. *)
Lemma strip_id (c c' : char) (r r' : text) (s : text) :
  s = c :: r -> s = r' ++ [c'] -> is_space c = false -> is_space c' = false ->
  strip s = s.
Proof.
  intros E1 E2 Hc Hc'. unfold strip.
  assert (L : lstrip s = s) by (rewrite E1; simpl; rewrite Hc; reflexivity).
  rewrite L. unfold rstrip.
  assert (R : rev s = c' :: rev r') by (rewrite E2, rev_app_distr; reflexivity).
  rewrite R. cbn [lstrip]. rewrite Hc', <- R. apply rev_involutive.
Qed.

Lemma str_int_last (z : Z) :
  exists r c, str_int z = r ++ [c] /\ is_space c = false.
Proof.
  destruct (digits_of_last (Z.abs_N z)) as (r & c & E & Hc).
  unfold str_int, with_sign. rewrite E. destruct (z <? 0).
  - exists (0x2D%N :: r), c. split; [reflexivity|apply digit_not_space; exact Hc].
  - exists r, c. split; [reflexivity|apply digit_not_space; exact Hc].
Qed.

Lemma str_int_head (z : Z) :
  exists c r, str_int z = c :: r /\ is_space c = false.
Proof.
  destruct (digits_of_head (Z.abs_N z)) as (c & r & E & Hc).
  unfold str_int, with_sign. rewrite E. destruct (z <? 0).
  - exists 0x2D%N, (c :: r). split; reflexivity.
  - exists c, r. split; [reflexivity|apply digit_not_space; exact Hc].
Qed.

Lemma strip_str_int (z : Z) : strip (str_int z) = str_int z.
Proof.
  destruct (str_int_head z) as (c & r & E1 & Hc).
  destruct (str_int_last z) as (r' & c' & E2 & Hc').
  exact (strip_id c c' r r' _ E1 E2 Hc Hc').
Qed.

Lemma strip_field_line (b : branch) (z : Z) :
  is_numeric b = true -> strip (field_line b z) = field_line b z.
Proof.
  intros Hb. destruct (str_int_last z) as (r' & c' & E2 & Hc').
  unfold field_line. rewrite E2.
  destruct b; try discriminate;
    match goal with
    | |- strip (?p ++ ?q ++ r' ++ [c']) = _ =>
        let p' := eval vm_compute in p in
        let q' := eval vm_compute in q in
        change p with p'; change q with q'
    end; cbn [app];
    match goal with
    | |- strip (?c0 :: ?rest) = _ =>
        refine (strip_id c0 c' _ (removelast (c0 :: rest)) _ eq_refl _ eq_refl Hc')
    end; rewrite !app_comm_cons; rewrite removelast_last; reflexivity.
Qed.

(** What a line of the game offers to its own field. *)
Lemma int_value_field_line (b : branch) (z : Z) :
  is_numeric b = true ->
  int_value b (field_line b z)
  = match py_int (str_int z) with Ok n => Some n | Raise _ => None end.
Proof.
  intros Hb. unfold int_value. rewrite (strip_field_line b z Hb).
  unfold field_line at 1. rewrite startswith_prefix.
  assert (A : after_colon (field_line b z) = Some (py " " ++ str_int z)).
  { unfold field_line. destruct b; try discriminate; reflexivity. }
  rewrite A.
  assert (S : strip (py " " ++ str_int z) = str_int z).
  { rewrite <- (app_nil_r (str_int z)) at 1.
    rewrite (strip_spaces_around (py " ") [] (str_int z)).
    - apply strip_str_int.
    - repeat constructor.
    - constructor. }
  rewrite S. reflexivity.
Qed.

(** X17: a numeric field written by the game in plain decimal is read
    back exactly.  For every integer of at most 4300 digits, negative or
    not, [int] of its decimal form is the integer, and the line made of the
    key and that form sets the key's field to it, whatever the dict held. *)
Theorem decimal_value_read_back (b : branch) (d : data) (z : Z) :
  is_numeric b = true ->
  (length (digits_of (Z.abs_N z)) <= 4300)%nat ->
  py_int (str_int z) = Ok z /\
  parse_line d (field_line b z) = Ok (set_field b d z) /\
  forall l1 l2,
    Forall (fun raw => int_value b raw = None) l2 ->
    exists d', parse_lines (l1 ++ field_line b z :: l2) = Ok d' /\ d_field b d' = z.
Proof.
  intros Hb Hlen.
  assert (P : py_int (str_int z) = Ok z).
  { rewrite py_int_str_int. unfold int_max_str_digits.
    destruct (N.ltb_spec 4300 (N.of_nat (length (digits_of (Z.abs_N z)))));
      [lia|reflexivity]. }
  assert (V : int_value b (field_line b z) = Some z)
    by (rewrite (int_value_field_line b z Hb), P; reflexivity).
  assert (B : branch_of (strip (field_line b z)) = b)
    by (apply (int_value_branch b _ z Hb V)).
  split; [exact P|]. split.
  - rewrite parse_line_spec, apply_line_cases, B.
    destruct b; try discriminate; cbv zeta; rewrite V; reflexivity.
  - intros l1 l2 Hl2. rewrite parse_lines_spec. eexists. split; [reflexivity|].
    destruct b; try discriminate; simpl;
      apply last_value_last; assumption.
Qed.

(** X17 on the line [Gold: -1234]. *)
Lemma decimal_value_read_back_witness :
  py_int (str_int (-1234)) = Ok (-1234) /\
  parse_line data_init (field_line BGold (-1234)) = Ok (set_field BGold data_init (-1234)).
Proof.
  destruct (decimal_value_read_back BGold data_init (-1234)) as (H1 & H2 & _).
  - reflexivity.
  - vm_compute. lia.
  - split; [exact H1|exact H2].
Defined.

(** X18: a decimal value of more than 4300 digits is not read: [int]
    raises [ValueError] for it, which the parser catches, so the line
    leaves the dict as it was. *)
Theorem overlong_value_ignored (b : branch) (d : data) (z : Z) :
  is_numeric b = true ->
  (4300 < length (digits_of (Z.abs_N z)))%nat ->
  py_int (str_int z) = Raise ValueError /\
  parse_line d (field_line b z) = Ok d.
Proof.
  intros Hb Hlen.
  assert (P : py_int (str_int z) = Raise ValueError).
  { rewrite py_int_str_int. unfold int_max_str_digits.
    destruct (N.ltb_spec 4300 (N.of_nat (length (digits_of (Z.abs_N z)))));
      [reflexivity|lia]. }
  split; [exact P|].
  rewrite parse_line_spec. f_equal.
  apply (malformed_line_ignored b); [exact Hb| |].
  - rewrite (strip_field_line b z Hb). apply startswith_prefix.
  - rewrite (int_value_field_line b z Hb), P. reflexivity.
Qed.

(** X18 on the currency 10^4300, which has 4301 digits. *)
Lemma overlong_value_ignored_witness :
  parse_line data_init (field_line BGold (10 ^ 4300)) = Ok data_init.
Proof.
  destruct (overlong_value_ignored BGold data_init (10 ^ 4300)) as (_ & H).
  - reflexivity.
  - vm_compute. lia.
  - exact H.
Defined.

(** ** Trimmed names *)

Lemma lstrip_suffix (s : text) :
  exists ws, s = ws ++ lstrip s.
Proof.
  induction s as [|c s [ws IH]].
  - exists []. reflexivity.
  - simpl. destruct (is_space c).
    + exists (c :: ws). simpl. rewrite <- IH. reflexivity.
    + exists []. reflexivity.
Qed.

Lemma lstrip_head (s : text) (c : char) (r : text) :
  lstrip s = c :: r -> is_space c = false.
Proof.
  induction s as [|a s IH]; [discriminate|].
  simpl. destruct (is_space a) eqn:Ha; [exact IH|].
  intros [= <- _]. exact Ha.
Qed.

Lemma strip_idempotent (s : text) : strip (strip s) = strip s.
Proof.
  unfold strip at 2 3. set (u := lstrip s).
  destruct (lstrip_suffix (rev u)) as [ws Hws].
  assert (Hu : u = rstrip u ++ rev ws).
  { unfold rstrip. rewrite <- rev_app_distr, <- Hws. symmetry. apply rev_involutive. }
  destruct (rstrip u) as [|c r] eqn:Er; [reflexivity|].
  assert (Hc : is_space c = false).
  { apply (lstrip_head s c (r ++ rev ws)). fold u. rewrite Hu. reflexivity. }
  assert (Hl : exists r' c', c :: r = r' ++ [c'] /\ is_space c' = false).
  { assert (Hne : c :: r <> []) by discriminate.
    destruct (exists_last Hne) as (r' & c' & E). exists r', c'. split; [exact E|].
    apply (lstrip_head (rev u) c' (rev r')).
    unfold rstrip in Er. rewrite <- (rev_involutive (lstrip (rev u))), Er, E.
    rewrite rev_app_distr. reflexivity. }
  destruct Hl as (r' & c' & E & Hc').
  exact (strip_id c c' r r' _ eq_refl E Hc Hc').
Qed.

Lemma last_value_offered {A} (offer : text -> option A) (dflt : A) (lines : list text) :
  last_value offer dflt lines = dflt \/
  exists raw, In raw lines /\ offer raw = Some (last_value offer dflt lines).
Proof.
  revert dflt. induction lines as [|raw lines IH]; intros dflt.
  - left. reflexivity.
  - rewrite last_value_cons. destruct (IH (default dflt (offer raw))) as [E|(r & Hin & E)].
    + rewrite E. destruct (offer raw) as [v|] eqn:Ho; simpl.
      * right. exists raw. split; [left; reflexivity|exact Ho].
      * left. reflexivity.
    + right. exists r. split; [right; exact Hin|exact E].
Qed.

(** X19: the name of a record is trimmed: it is not empty and has no white
    space at either end, whatever stood around it in the file.  [strip]
    applied again changes nothing. *)
Theorem names_are_trimmed (content : text) (p : Player) :
  parse_content content = Ok (Some p) ->
  name p <> [] /\ strip (name p) = name p /\
  (exists c r, name p = c :: r /\ is_space c = false) /\
  (forall s, strip (strip s) = strip s).
Proof.
  intros H. rewrite parse_content_spec in H. unfold parse_spec in H.
  destruct (last_value name_value [] (splitlines content)) as [|c r] eqn:E;
    [discriminate|].
  injection H as <-. cbn [name].
  assert (T : strip (c :: r) = c :: r).
  { destruct (last_value_offered name_value [] (splitlines content)) as [E0|(raw & _ & Ho)].
    - rewrite E in E0. discriminate.
    - rewrite E in Ho. unfold name_value in Ho.
      destruct (startswith _ _); [|discriminate].
      destruct (after_colon (strip raw)) as [v|]; [|discriminate].
      simpl in Ho. injection Ho as <-. apply strip_idempotent. }
  split; [discriminate|]. split; [exact T|]. split; [|exact strip_idempotent].
  exists c, r. split; [reflexivity|].
  apply (lstrip_head (c :: r) c r).
  destruct (is_space c) eqn:Hc; [|simpl; rewrite Hc; reflexivity].
  exfalso. unfold strip in T.
  destruct (lstrip_suffix (c :: r)) as [ws Hws].
  assert (Hlen : (length (rstrip (lstrip (c :: r))) <= length (lstrip (c :: r)))%nat).
  { unfold rstrip. rewrite length_rev.
    destruct (lstrip_suffix (rev (lstrip (c :: r)))) as [ws' Hws'].
    apply (f_equal (@length char)) in Hws'. rewrite length_app, length_rev in Hws'.
    lia. }
  assert (Hlt : (length (lstrip (c :: r)) < length (c :: r))%nat).
  { simpl lstrip. rewrite Hc. destruct (lstrip_suffix r) as [ws'' Hr].
    apply (f_equal (@length char)) in Hr. rewrite length_app in Hr. simpl. lia. }
  rewrite T in Hlen. lia.
Qed.

(** X19 on a name line with blanks around the name. *)
Lemma names_are_trimmed_witness :
  strip (name (mkPlayer (py "Alice") 0 0 0 0)) = name (mkPlayer (py "Alice") 0 0 0 0).
Proof.
  destruct (names_are_trimmed (py "Name:    Alice   ") (mkPlayer (py "Alice") 0 0 0 0))
    as (_ & H & _).
  - vm_compute. reflexivity.
  - exact H.
Defined.

(** ** Line terminators *)

Lemma splitlines_from_nobreak (cur l rest : text) :
  one_line l ->
  splitlines_from cur (l ++ rest) = splitlines_from (rev l ++ cur) rest.
Proof.
  intros H. revert cur. induction H as [|c l Hc _ IH]; intros cur.
  - reflexivity.
  - cbn [app splitlines_from]. rewrite Hc, IH. cbn [rev].
    rewrite <- app_assoc. reflexivity.
Qed.

Lemma splitlines_from_LF (cur rest : text) :
  splitlines_from cur (0x0A%N :: rest) = rev cur :: splitlines_from [] rest.
Proof. destruct rest; reflexivity. Qed.

Lemma splitlines_from_CRLF (cur rest : text) :
  splitlines_from cur (0x0D%N :: 0x0A%N :: rest) = rev cur :: splitlines_from [] rest.
Proof. reflexivity. Qed.

Lemma splitlines_from_CR (cur rest : text) :
  (forall r, rest <> 0x0A%N :: r) ->
  splitlines_from cur (0x0D%N :: rest) = rev cur :: splitlines_from [] rest.
Proof.
  intros H. destruct rest as [|d r]; [reflexivity|].
  cbn [splitlines_from]. change (is_linebreak 13%N) with true. cbv iota.
  change (13 =? 13)%N with true. cbn [andb].
  destruct (N.eqb_spec d 10%N) as [->|_]; [|reflexivity].
  exfalso. exact (H r eq_refl).
Qed.

Lemma lines_with_CR_head (lines : list text) (r : text) :
  Forall one_line lines -> lines_with CR lines <> 0x0A%N :: r.
Proof.
  intros H. destruct H as [|l lines Hl _]; [discriminate|].
  unfold lines_with. cbn [List.map concat].
  destruct Hl as [|c l Hc _]; [discriminate|].
  intros [= -> _]. discriminate.
Qed.

Lemma splitlines_lines_with (terminator : text) (lines : list text) :
  terminator = LF \/ terminator = CRLF \/ terminator = CR ->
  Forall one_line lines ->
  splitlines (lines_with terminator lines) = lines.
Proof.
  intros Ht H. unfold splitlines. induction H as [|l lines Hl Hrest IH]; [reflexivity|].
  unfold lines_with. cbn [List.map concat]. fold (lines_with terminator lines).
  rewrite <- app_assoc, (splitlines_from_nobreak [] l _ Hl), app_nil_r.
  destruct Ht as [-> | [-> | ->]]; cbn [LF CRLF CR app].
  - rewrite splitlines_from_LF, rev_involutive, IH. reflexivity.
  - rewrite splitlines_from_CRLF, rev_involutive, IH. reflexivity.
  - rewrite splitlines_from_CR, rev_involutive, IH; [reflexivity|].
    intros r. apply lines_with_CR_head. exact Hrest.
Qed.

Lemma splitlines_unterminated (terminator : text) (lines : list text) (final : text) :
  terminator = LF \/ terminator = CRLF \/ terminator = CR ->
  Forall one_line lines -> one_line final -> final <> [] ->
  splitlines (lines_with terminator lines ++ final) = lines ++ [final].
Proof.
  intros Ht H Hf Hne. unfold splitlines.
  assert (F : splitlines_from [] final = [final]).
  { rewrite <- (app_nil_r final) at 1.
    rewrite (splitlines_from_nobreak [] final [] Hf), app_nil_r.
    cbn [splitlines_from]. destruct (rev final) eqn:E.
    - exfalso. apply Hne. rewrite <- (rev_involutive final), E. reflexivity.
    - rewrite <- E, rev_involutive. reflexivity. }
  induction H as [|l lines Hl Hrest IH]; [exact F|].
  unfold lines_with. cbn [List.map concat]. fold (lines_with terminator lines).
  rewrite <- !app_assoc, (splitlines_from_nobreak [] l _ Hl), app_nil_r.
  destruct Ht as [-> | [-> | ->]]; cbn [LF CRLF CR app].
  - rewrite splitlines_from_LF, rev_involutive, IH. reflexivity.
  - rewrite splitlines_from_CRLF, rev_involutive, IH. reflexivity.
  - rewrite splitlines_from_CR, rev_involutive, IH; [reflexivity|].
    intros r E. destruct lines as [|l' lines'].
    + cbn in E. destruct Hf as [|c f Hc _]; [contradiction|].
      injection E as -> _. discriminate.
    + apply (lines_with_CR_head (l' :: lines') (skipn 1 (lines_with CR (l' :: lines')))).
      * exact Hrest.
      * unfold lines_with in *. cbn [List.map concat] in *.
        inversion Hrest as [|? ? Hl' _]; subst.
        destruct Hl' as [|c l'' Hc _].
        -- cbn in E |- *. discriminate.
        -- cbn in E. injection E as -> _. discriminate.
Qed.

(** X20: the way the lines of a file end does not matter.  A text whose
    lines all end in a line feed, all in a carriage return and a line feed,
    or all in a carriage return splits into those lines, so the three texts
    parse alike; and a last line that is not ended is a line too. *)
Theorem line_terminators_insignificant (lines : list text) (final : text) :
  Forall one_line lines -> one_line final -> final <> [] ->
  splitlines (file_of_lines lines) = lines /\
  parse_content (lines_with CRLF lines) = parse_content (file_of_lines lines) /\
  parse_content (lines_with CR lines) = parse_content (file_of_lines lines) /\
  splitlines (file_of_lines lines ++ final) = lines ++ [final] /\
  parse_content (file_of_lines lines ++ final)
  = parse_content (file_of_lines (lines ++ [final])).
Proof.
  intros H Hf Hne.
  change (file_of_lines lines) with (lines_with LF lines).
  change (file_of_lines (lines ++ [final])) with (lines_with LF (lines ++ [final])).
  assert (HL : splitlines (lines_with LF lines) = lines)
    by (apply splitlines_lines_with; [left; reflexivity|exact H]).
  split; [exact HL|].
  unfold parse_content.
  rewrite !splitlines_lines_with, splitlines_unterminated; auto.
  apply Forall_app. split; [exact H|]. constructor; [exact Hf|constructor].
Qed.

(** X20 on a file of two lines and an unended third. *)
Lemma line_terminators_insignificant_witness :
  parse_content (lines_with CRLF [py "Name: A"; py "Gold: 7"])
  = parse_content (file_of_lines [py "Name: A"; py "Gold: 7"]).
Proof.
  destruct (line_terminators_insignificant [py "Name: A"; py "Gold: 7"] (py "Levl: 3"))
    as (_ & H & _).
  - repeat constructor.
  - repeat constructor.
  - discriminate.
  - exact H.
Defined.

(** ** The whole run *)



(** ** The value of a line *)

(** X22: the value of a line is all the text after its first colon.  For a
    line that strips to one of the colon-ended prefixes followed by [v],
    later colons belong to the value: a name keeps them, and a number with
    one is no integer and leaves its field alone. *)
Theorem value_is_text_after_first_colon (b : branch) (d : data) (raw v : text) :
  b <> BNone -> b <> BExp ->
  strip raw = key_prefix b ++ v ->
  value_of (strip raw) = Ok (strip v) /\
  parse_line d raw =
    Ok match b with
       | BName => set_name d (strip v)
       | _ => match py_int (strip v) with
              | Ok n => set_field b d n
              | Raise _ => d
              end
       end.
Proof.
  intros Hn He Hs.
  assert (A : after_colon (strip raw) = Some v)
    by (rewrite Hs; destruct b; try contradiction; reflexivity).
  assert (P : startswith (key_prefix b) (strip raw) = true)
    by (rewrite Hs; apply startswith_prefix).
  assert (B : branch_of (strip raw) = b) by (apply (branch_of_prefix b); assumption).
  split.
  - rewrite value_of_after_colon, A. reflexivity.
  - rewrite parse_line_spec, apply_line_cases, B.
    destruct b; try contradiction; cbv zeta;
      unfold name_value, int_value; rewrite P, A; try reflexivity;
      destruct (py_int (strip v)); reflexivity.
Qed.

(** X22 on the line [Name: Dr: Who]. *)
Lemma value_is_text_after_first_colon_witness :
  parse_line data_init (py "Name: Dr: Who") = Ok (set_name data_init (py "Dr: Who")).
Proof.
  destruct (value_is_text_after_first_colon
              BName data_init (py "Name: Dr: Who") (py " Dr: Who")) as [_ H].
  - discriminate.
  - discriminate.
  - vm_compute. reflexivity.
  - exact H.
Defined.
